(** * WebAmpers backend: request layer and audio processor

    A shallow embedding of [backend/app.py] (the Flask request layer) and
    [backend/audio_processor.py] (the pydub wrapper), with the properties
    of the specification stated and proved over it.

    Conventions of the embedding:
    - Python [str] is [string]; characters are bytes, [str.lower] folds the
      ASCII letters (no non-ASCII character lowers to one of the letters
      of the format names).
    - Python exceptions are values of [exn]; a call that may raise returns
      a [result].
    - The file system is a finite map from full paths to nodes; the
      processor and the handlers thread a [world] through their calls.
      Times are whole seconds.
    - pydub, werkzeug's [secure_filename] and [uuid.uuid4] are external:
      they are the fields of the class [Externals].
    - Flask is kept to what the handlers use of it: a request is its
      uploads, its form fields and the size of its body (a body over
      [MAX_CONTENT_LENGTH] makes [request.files] raise); [jsonify] builds
      a response, [send_file] builds one or raises when the path is not a
      readable file, [file.save] writes the upload to the disk or raises.
      Paths given to [send_file] are read in the directory the other
      file operations work in.
    - The causes for which the system refuses an operation on a file are
      those of [OS]: a missing or unusable parent directory, a name
      longer than [NAME_MAX], a directory where a file is expected, and
      an entry marked [denied].
    - Each handler returns, next to its response and the new world, the
      trace of what it did (uploads saved, processor calls, exceptions
      caught), so that "is called once" or "is never called" can be
      stated. *)

From Stdlib Require Import ZArith Ascii String QArith.
From stdpp Require Import gmap strings list fin_maps pretty.

Local Open Scope Z_scope.

(** ** Python values, exceptions and string methods *)

Module Py.

Inductive exn_class :=
| ValueError
| TypeError
| AttributeError
| OSError                (* IOError is an alias of OSError *)
| NotImplementedError
| AudioProcessingError
| RequestEntityTooLarge  (* werkzeug.exceptions, an HTTPException *)
| RuntimeError.

(** An exception object; [exn_msg] is [str(exc)]. *)
Record exn := Exn { exn_cls : exn_class; exn_msg : string }.

Inductive result (A : Type) :=
| Ok (a : A)
| Raise (e : exn).
Arguments Ok {A} a.
Arguments Raise {A} e.

#[local] Unset Elimination Schemes.
Inductive pyval :=
| PNone
| PBool (b : bool)
| PInt (z : Z)
| PFloat (q : Q)
| PStr (s : string)
| PList (l : list pyval)
| PDict (d : list (string * pyval)).
#[local] Set Elimination Schemes.

(** Truth value of an object, as tested by [if x:] and [not x]. *)
Definition truthy (v : pyval) : bool :=
  match v with
  | PNone => false
  | PBool b => b
  | PInt z => negb (z =? 0)
  | PFloat q => negb (Qeq_bool q 0)
  | PStr s => negb (String.eqb s "")
  | PList l => match l with [] => false | _ => true end
  | PDict d => match d with [] => false | _ => true end
  end.

(** [d.get(key, default)] on a dict kept as an association list. *)
Fixpoint dict_get (key : string) (d : list (string * pyval)) (default : pyval)
  : pyval :=
  match d with
  | [] => default
  | (k, v) :: rest => if String.eqb k key then v else dict_get key rest default
  end.

(** [except (IOError, OSError)] *)
Definition is_os_error (e : exn) : bool :=
  match exn_cls e with OSError => true | _ => false end.

Definition lower_ascii (a : ascii) : ascii :=
  let n := nat_of_ascii a in
  if ((65 <=? n) && (n <=? 90))%nat then ascii_of_nat (n + 32) else a.

(** [s.lower()] *)
Fixpoint lower (s : string) : string :=
  match s with
  | EmptyString => EmptyString
  | String a rest => String (lower_ascii a) (lower rest)
  end.

(** [c in s] for a one-character string [c]. *)
Fixpoint has_char (c : ascii) (s : string) : bool :=
  match s with
  | EmptyString => false
  | String a rest => Ascii.eqb a c || has_char c rest
  end.

(** [s.startswith(p)] *)
Fixpoint startswith (p s : string) : bool :=
  match p, s with
  | EmptyString, _ => true
  | String a p', String b s' => Ascii.eqb a b && startswith p' s'
  | String _ _, EmptyString => false
  end.

(** [needle in hay] for strings. *)
Fixpoint contains (needle hay : string) : bool :=
  startswith needle hay ||
  match hay with
  | EmptyString => false
  | String _ rest => contains needle rest
  end.

(** [s.rsplit(c, 1)]: split once, at the last occurrence of [c]. *)
Fixpoint rsplit1 (c : ascii) (s : string) : list string :=
  match s with
  | EmptyString => [EmptyString]
  | String a rest =>
      match rsplit1 c rest with
      | [tl] => if Ascii.eqb a c then [EmptyString; tl] else [String a tl]
      | hd :: tl => String a hd :: tl
      | [] => []
      end
  end.

(** [x in collection] for a set or list of strings. *)
Definition str_in (x : string) (l : list string) : bool :=
  existsb (String.eqb x) l.

(** [sep.join(l)] *)
Definition join (sep : string) (l : list string) : string :=
  String.concat sep l.

(** The blanks that [int] skips around an ASCII literal (C's
    [isspace]): tab, line feed, vertical tab, form feed, carriage
    return, space. *)
Definition is_space (a : ascii) : bool :=
  let n := nat_of_ascii a in
  (((9 <=? n) && (n <=? 13)) || (n =? 32))%nat.

Definition is_digit (a : ascii) : bool :=
  let n := nat_of_ascii a in ((48 <=? n) && (n <=? 57))%nat.

Definition digit_val (a : ascii) : Z := Z.of_nat (nat_of_ascii a) - 48.

Fixpoint lstrip (s : string) : string :=
  match s with
  | EmptyString => EmptyString
  | String a rest => if is_space a then lstrip rest else s
  end.

Fixpoint rstrip (s : string) : string :=
  match s with
  | EmptyString => EmptyString
  | String a rest =>
      match rstrip rest with
      | EmptyString => if is_space a then EmptyString else String a EmptyString
      | r => String a r
      end
  end.

(** [sys.get_int_max_str_digits()]: [int] refuses a literal with more
    digits than this (CPython 3.11, default setting). *)
Definition INT_MAX_STR_DIGITS : nat := 4300.

(** Digits with single underscores between them; [seen] tells whether
    the previous character was a digit, [count] how many digits were
    read. *)
Fixpoint parse_digits (seen : bool) (count : nat) (acc : Z) (s : string)
  : option Z :=
  match s with
  | EmptyString =>
      if seen && (count <=? INT_MAX_STR_DIGITS)%nat then Some acc else None
  | String a rest =>
      if is_digit a
      then parse_digits true (S count) (10 * acc + digit_val a) rest
      else if Ascii.eqb a "_" && seen then parse_digits false count acc rest
      else None
  end.

(** [s.isascii()] *)
Fixpoint is_ascii (s : string) : bool :=
  match s with
  | EmptyString => true
  | String a rest => (nat_of_ascii a <? 128)%nat && is_ascii rest
  end.

(** [int(s)], base 10, for a string [s] of ASCII characters: blanks
    around, an optional sign, digits.  [None] stands for [ValueError]. *)
Definition int_ascii (s : string) : option Z :=
  match lstrip (rstrip s) with
  | String "-" rest => Z.opp <$> parse_digits false 0 0 rest
  | String "+" rest => parse_digits false 0 0 rest
  | body => parse_digits false 0 0 body
  end.

End Py.
Export Py.

(** ** The operating system: paths, directory entries, the clock *)

Module OS.

(** A directory entry.  [mtime] is the modification time in seconds;
    [denied] marks an entry on which the system refuses the operation
    with a permission error: [os.remove] and opening for a file,
    [os.listdir] and the creation of an entry for a directory. *)
Record node := Node { is_dir : bool; mtime : Z; denied : bool }.

Definition regular_file (t : Z) : node := Node false t false.
Definition directory (t : Z) : node := Node true t false.

Fixpoint ends_with_slash (s : string) : bool :=
  match s with
  | EmptyString => false
  | String a EmptyString => Ascii.eqb a "/"
  | String _ rest => ends_with_slash rest
  end.

Definition dir_prefix (folder : string) : string :=
  if String.eqb folder "" then ""
  else if ends_with_slash folder then folder
  else folder +:+ "/".

(** [os.path.join(a, b)] *)
Definition path_join (a b : string) : string :=
  if startswith "/" b then b else dir_prefix a +:+ b.

Fixpoint strip_prefix (p s : string) : option string :=
  match p, s with
  | EmptyString, _ => Some s
  | String a p', String b s' =>
      if Ascii.eqb a b then strip_prefix p' s' else None
  | String _ _, EmptyString => None
  end.

(** The name under which the path [p] is listed in [folder], if [p] is
    directly inside it. *)
Definition child_name (folder p : string) : option string :=
  match strip_prefix (dir_prefix folder) p with
  | Some n =>
      if negb (String.eqb n "") && negb (has_char "/" n) then Some n else None
  | None => None
  end.

Definition os_error (what path : string) : exn :=
  Exn OSError (what +:+ ": '" +:+ path +:+ "'").

(** [os.path.exists(p)] *)
Definition path_exists (p : string) (d : gmap string node) : bool :=
  match d !! p with Some _ => true | None => false end.

(** [os.path.isdir(p)] *)
Definition path_isdir (p : string) (d : gmap string node) : bool :=
  match d !! p with Some n => is_dir n | None => false end.

(** [os.path.getmtime(p)] *)
Definition getmtime (p : string) (d : gmap string node) : result Z :=
  match d !! p with
  | Some n => Ok (mtime n)
  | None => Raise (os_error "[Errno 2] No such file or directory" p)
  end.

(** [os.listdir(folder)], in the order the system yields the entries. *)
Definition listdir (folder : string) (d : gmap string node)
  : result (list string) :=
  match d !! folder with
  | None => Raise (os_error "[Errno 2] No such file or directory" folder)
  | Some n =>
      if negb (is_dir n) then
        Raise (os_error "[Errno 20] Not a directory" folder)
      else if denied n then
        Raise (os_error "[Errno 13] Permission denied" folder)
      else Ok (omap (fun kv => child_name folder kv.1) (map_to_list d))
  end.

(** [os.remove(p)] *)
Definition remove (p : string) (d : gmap string node)
  : result (gmap string node) :=
  match d !! p with
  | None => Raise (os_error "[Errno 2] No such file or directory" p)
  | Some n =>
      if is_dir n then Raise (os_error "[Errno 21] Is a directory" p)
      else if denied n then Raise (os_error "[Errno 13] Permission denied" p)
      else Ok (delete p d)
  end.

(** The longest name a directory entry may have, in bytes. *)
Definition NAME_MAX : nat := 255.

Fixpoint rstrip_slashes (s : string) : string :=
  match s with
  | EmptyString => EmptyString
  | String a rest =>
      match rstrip_slashes rest with
      | EmptyString =>
          if Ascii.eqb a "/" then EmptyString else String a EmptyString
      | r => String a r
      end
  end.

(** [os.path.basename(p)]: what follows the last slash. *)
Definition basename (p : string) : string :=
  match rsplit1 "/" p with
  | [_; tl] => tl
  | _ => p
  end.

(** [os.path.dirname(p)]: what precedes the last slash, without the
    slashes it ends with unless it is made of slashes only. *)
Definition dirname (p : string) : string :=
  match rsplit1 "/" p with
  | [hd; _] =>
      if String.eqb (rstrip_slashes hd) "" then hd +:+ "/"
      else rstrip_slashes hd
  | _ => ""
  end.

(** The error, if any, of [open(p, 'wb')].  An existing entry is
    opened unless it is a directory or denied; a new one needs a name
    of at most [NAME_MAX] bytes and a parent directory that takes it
    (the working directory, written [""], always does). *)
Definition write_error (p : string) (d : gmap string node) : option exn :=
  if String.eqb p "" then
    Some (os_error "[Errno 2] No such file or directory" p)
  else
    match d !! p with
    | Some n =>
        if is_dir n then Some (os_error "[Errno 21] Is a directory" p)
        else if denied n then Some (os_error "[Errno 13] Permission denied" p)
        else None
    | None =>
        if String.eqb (basename p) "" then
          Some (os_error "[Errno 21] Is a directory" p)
        else if (NAME_MAX <? String.length (basename p))%nat then
          Some (os_error "[Errno 36] File name too long" p)
        else if String.eqb (dirname p) "" then None
        else
          match d !! dirname p with
          | None => Some (os_error "[Errno 2] No such file or directory" p)
          | Some n =>
              if negb (is_dir n) then
                Some (os_error "[Errno 20] Not a directory" p)
              else if denied n then
                Some (os_error "[Errno 13] Permission denied" p)
              else None
          end
    end.

(** Opening [p] for writing and writing it out at time [t]: the entry
    becomes an ordinary file stamped [t]. *)
Definition write (p : string) (t : Z) (d : gmap string node)
  : result (gmap string node) :=
  match write_error p d with
  | Some e => Raise e
  | None => Ok (<[p := regular_file t]> d)
  end.

(** The error, if any, of opening [p] for reading ([send_file] stats
    the path and opens it). *)
Definition read_error (p : string) (d : gmap string node) : option exn :=
  match d !! p with
  | None => Some (os_error "[Errno 2] No such file or directory" p)
  | Some n =>
      if is_dir n then Some (os_error "[Errno 21] Is a directory" p)
      else if denied n then Some (os_error "[Errno 13] Permission denied" p)
      else None
  end.

End OS.

(** ** The world threaded through the program *)

Record world := World {
  disk : gmap string OS.node;   (* the file system *)
  clock : Z;                    (* what time.time() returns *)
  uuid_count : nat;             (* how many uuid4() were drawn *)
  console : list string         (* lines printed or logged *)
}.

Definition with_disk (d : gmap string OS.node) (w : world) : world :=
  World d (clock w) (uuid_count w) (console w).

Definition emit (line : string) (w : world) : world :=
  World (disk w) (clock w) (uuid_count w) (console w ++ [line]).

(** Writing a file at [path] (a pydub export, an upload being saved)
    leaves an ordinary file stamped with the current time. *)
Definition write_file (path : string) (w : world) : world :=
  with_disk (<[path := OS.regular_file (clock w)]> (disk w)) w.

(** ** External libraries *)

Class Externals := {
  (** the value of [uuid.uuid4().hex] at the n-th draw *)
  uuid4_hex : nat -> string;
  (** [werkzeug.utils.secure_filename] *)
  secure_filename : string -> string;
  (** pydub's [AudioSegment] *)
  AudioSegment : Type;
  from_file : string -> result AudioSegment;
  seg_len : AudioSegment -> Z;                       (* len(audio), in ms *)
  (** [a + b] and [a.append(b, crossfade=ms)]: pydub brings both to
      the same channels and rates first and raises when it cannot, or
      when the crossfade is longer than one of the two *)
  seg_add : AudioSegment -> AudioSegment -> result AudioSegment;
  seg_append : AudioSegment -> AudioSegment -> Z -> result AudioSegment;
  seg_slice : AudioSegment -> Z -> Z -> AudioSegment;       (* a[s:e] *)
  (** [a.set_frame_rate(rate)] raises on a rate it cannot use *)
  seg_set_frame_rate : AudioSegment -> pyval -> result AudioSegment;
  normalize : AudioSegment -> AudioSegment;
  seg_channels : AudioSegment -> Z;
  seg_frame_rate : AudioSegment -> Z;
  seg_sample_width : AudioSegment -> Z;
  seg_frame_count : AudioSegment -> Q;
  seg_dBFS : AudioSegment -> Q;
  (** the exception, if any, that [audio.export(path, **params)] raises,
      and whether a failing export had created the destination by then
      (pydub opens it before it encodes) *)
  export_error : AudioSegment -> string -> list (string * pyval) -> option exn;
  export_leaves_file : AudioSegment -> string -> list (string * pyval) -> bool;
  (** [int(s)] for a string [s] that is not plain ASCII: Python also
      reads the decimal digits and blanks of other scripts *)
  int_unicode : string -> option Z
}.

(** [int(s)], base 10; [None] stands for [ValueError]. *)
Definition int_of_str `{Externals} (s : string) : option Z :=
  if is_ascii s then int_ascii s else int_unicode s.

Definition uuid4 `{Externals} (w : world) : string * world :=
  (uuid4_hex (uuid_count w),
   World (disk w) (clock w) (S (uuid_count w)) (console w)).

(** ** The processing layer seen from the request layer

    The handlers reach the processor through the module-level object
    [processor]; a call passes positional arguments and either returns
    or raises.  [call_get_audio_info] only reads: it produces no file. *)

Record Processor := {
  call_convert_format : list pyval -> world -> result string * world;
  call_merge_files : list pyval -> world -> result string * world;
  call_export_with_settings : list pyval -> world -> result string * world;
  call_get_audio_info : list pyval -> world -> result (list (string * pyval))
}.

(** ** backend/audio_processor.py *)

Module AudioProcessor.

(** Computations that thread the world and may raise. *)
Definition M (A : Type) : Type := world -> result A * world.

Definition ret {A} (a : A) : M A := fun w => (Ok a, w).
Definition raise {A} (e : exn) : M A := fun w => (Raise e, w).
Definition lift {A} (r : result A) : M A := fun w => (r, w).
Definition bind {A B} (m : M A) (k : A -> M B) : M B :=
  fun w =>
    match m w with
    | (Ok a, w') => k a w'
    | (Raise e, w') => (Raise e, w')
    end.

Notation "'let*' x ':=' m 'in' k" := (bind m (fun x => k))
  (at level 10, x name, m at level 100, k at level 200, only parsing).

(** [try: m  except (IOError, OSError) as exc: raise
    AudioProcessingError(prefix + str(exc)) from exc] *)
Definition wrap_os_error {A} (prefix : string) (m : M A) : M A :=
  fun w =>
    match m w with
    | (Raise e, w') =>
        if is_os_error e
        then (Raise (Exn AudioProcessingError (prefix +:+ exn_msg e)), w')
        else (Raise e, w')
    | done => done
    end.

(** A Python set.  The code only tests membership in it, and joins it
    into the message of [_validate_format]; the order of that listing is
    the set's iteration order, taken here to be the order of the source
    text. *)
Definition supported_formats : list string :=
  ["wav"; "mp3"; "ogg"; "flac"; "m4a"].

Definition default_bitrates : list (string * string) :=
  [("mp3", "192k"); ("ogg", "128k"); ("m4a", "128k")].

Definition CLEANUP_THRESHOLD_SECONDS : Z := 3600.

(** [fmt in self.default_bitrates] and [self.default_bitrates[fmt]] *)
Fixpoint bitrate_of (fmt : string) (table : list (string * string))
  : option string :=
  match table with
  | [] => None
  | (k, v) :: rest => if String.eqb k fmt then Some v else bitrate_of fmt rest
  end.

(** The processor object: its only attribute is the output folder. *)
Record t := Build { upload_folder : string }.

Section Methods.
Context `{Externals}.

(** [audio.export(path, **params)] writes the file or raises; when it
    raises after having opened the destination, a file is left there. *)
Definition export (audio : AudioSegment) (path : string)
    (params : list (string * pyval)) : M unit :=
  fun w =>
    match export_error audio path params with
    | Some e =>
        (Raise e,
         if export_leaves_file audio path params then write_file path w else w)
    | None => (Ok tt, write_file path w)
    end.

Definition _validate_format (format_str : string) : result unit :=
  if negb (str_in (lower format_str) supported_formats) then
    Raise (Exn ValueError
             ("Unsupported format: " +:+ format_str +:+ ". " +:+
              "Supported formats: " +:+ join ", " supported_formats))
  else Ok tt.

Definition _generate_output_path (self : t) (suffix extension : string)
  : M string :=
  fun w =>
    let '(hex, w1) := uuid4 w in
    let file_name := hex +:+ "_" +:+ suffix +:+ "." +:+ extension in
    (Ok (OS.path_join (upload_folder self) file_name), w1).

Definition convert_format (self : t) (input_path target_format : string)
  : M string :=
  let* _ := lift (_validate_format target_format) in
  wrap_os_error "Conversion failed: " (
    let* audio := lift (from_file input_path) in
    let* output_path := _generate_output_path self "converted" target_format in
    let export_params := [("format", PStr target_format)] in
    let export_params :=
      match bitrate_of target_format default_bitrates with
      | Some b => export_params ++ [("bitrate", PStr b)]
      | None => export_params
      end in
    let export_params :=
      if String.eqb target_format "mp3"
      then export_params ++ [("parameters", PList [PStr "-q:a"; PStr "2"])]
      else export_params in
    let* _ := export audio output_path export_params in
    ret output_path).

(** The loop [for path in file_paths[1:]] of [merge_files]. *)
Fixpoint merge_loop (merged : AudioSegment) (paths : list string)
    (crossfade_ms : Z) : result AudioSegment :=
  match paths with
  | [] => Ok merged
  | path :: rest =>
      match from_file path with
      | Raise e => Raise e
      | Ok audio =>
          match (if crossfade_ms >? 0
                 then seg_append merged audio crossfade_ms
                 else seg_add merged audio) with
          | Raise e => Raise e
          | Ok merged => merge_loop merged rest crossfade_ms
          end
      end
  end.

Definition merge_files (self : t) (file_paths : list string)
    (output_format : string) (crossfade_ms : Z) : M string :=
  if (length file_paths <? 2)%nat then
    raise (Exn ValueError "Need at least 2 files to merge")
  else
    let* _ := lift (_validate_format output_format) in
    wrap_os_error "Merge failed: " (
      let* merged := lift (from_file (hd "" file_paths)) in
      let* merged := lift (merge_loop merged (tl file_paths) crossfade_ms) in
      let* output_path := _generate_output_path self "merged" output_format in
      let export_params := [("format", PStr output_format)] in
      let export_params :=
        match bitrate_of output_format default_bitrates with
        | Some b => export_params ++ [("bitrate", PStr b)]
        | None => export_params
        end in
      let export_params :=
        if String.eqb output_format "mp3"
        then export_params ++ [("parameters", PList [PStr "-q:a"; PStr "2"])]
        else export_params in
      let* _ := export merged output_path export_params in
      ret output_path).

(** [settings.get(key, default)]; an object that is not a dict has no
    [get]. *)
Definition settings_get (settings : pyval) (key : string) (default : pyval)
  : result pyval :=
  match settings with
  | PDict d => Ok (dict_get key d default)
  | _ => Raise (Exn AttributeError "object has no attribute 'get'")
  end.

Definition export_with_settings (self : t)
    (input_path target_format : string) (settings : pyval) : M string :=
  let* _ := lift (_validate_format target_format) in
  wrap_os_error "Export with settings failed: " (
    let* audio := lift (from_file input_path) in
    let* normalize_audio := lift (settings_get settings "normalize_audio" (PBool false)) in
    let* sample_rate := lift (settings_get settings "sample_rate" PNone) in
    let* bitrate := lift (settings_get settings "bitrate" PNone) in
    let audio := if truthy normalize_audio then normalize audio else audio in
    let* audio :=
      lift (match sample_rate with
            | PNone => Ok audio
            | _ => seg_set_frame_rate audio sample_rate
            end) in
    let* output_path := _generate_output_path self "export" target_format in
    let export_params := [("format", PStr target_format)] in
    let export_params :=
      if truthy bitrate then export_params ++ [("bitrate", bitrate)]
      else match bitrate_of target_format default_bitrates with
           | Some b => export_params ++ [("bitrate", PStr b)]
           | None => export_params
           end in
    let export_params :=
      if String.eqb target_format "mp3"
      then export_params ++ [("parameters", PList [PStr "-q:a"; PStr "2"])]
      else export_params in
    let* _ := export audio output_path export_params in
    ret output_path).

Definition trim_audio (self : t) (input_path : string)
    (start_ms end_ms : Z) (output_format : string) : M string :=
  let* _ := lift (_validate_format output_format) in
  wrap_os_error "Trim failed: " (
    let* audio := lift (from_file input_path) in
    let duration_ms := seg_len audio in
    if (start_ms <? 0) || (end_ms >? duration_ms) || (start_ms >=? end_ms)
    then
      raise (Exn ValueError
               ("Invalid time range: " +:+ pretty start_ms +:+ "-" +:+
                pretty end_ms +:+ "ms " +:+
                "(audio duration: " +:+ pretty duration_ms +:+ "ms)"))
    else
      let trimmed := seg_slice audio start_ms end_ms in
      let* output_path := _generate_output_path self "trimmed" output_format in
      let* _ := export trimmed output_path [("format", PStr output_format)] in
      ret output_path).

Definition get_audio_info (self : t) (input_path : string)
  : result (list (string * pyval)) :=
  match from_file input_path with
  | Ok audio =>
      Ok [("duration_seconds", PFloat (inject_Z (seg_len audio) / 1000)%Q);
          ("channels", PInt (seg_channels audio));
          ("sample_rate", PInt (seg_frame_rate audio));
          ("sample_width", PInt (seg_sample_width audio));
          ("frame_count", PFloat (seg_frame_count audio));
          ("dBFS", PFloat (seg_dBFS audio))]
  | Raise e =>
      match exn_cls e with
      | OSError | AttributeError =>
          Raise (Exn AudioProcessingError
                   ("Failed to get audio info: " +:+ exn_msg e))
      | _ => Raise e
      end
  end.

(** The body of the loop of [cleanup_old_files], over the names that
    [os.listdir] returned.  The first component is the exception that
    ended the loop, if one did. *)
Fixpoint sweep (folder : string) (cutoff : Z) (names : list string)
    (d : gmap string OS.node) (cleaned_count : Z)
  : option exn * Z * gmap string OS.node :=
  match names with
  | [] => (None, cleaned_count, d)
  | filename :: rest =>
      let file_path := OS.path_join folder filename in
      if OS.path_isdir file_path d then sweep folder cutoff rest d cleaned_count
      else
        match OS.getmtime file_path d with
        | Raise e => (Some e, cleaned_count, d)
        | Ok m =>
            if m <? cutoff then
              match OS.remove file_path d with
              | Raise e => (Some e, cleaned_count, d)
              | Ok d' => sweep folder cutoff rest d' (cleaned_count + 1)
              end
            else sweep folder cutoff rest d cleaned_count
        end
  end.

Definition cleanup_old_files (self : t) (w : world) : Z * world :=
  let now := clock w in
  let cutoff := now - CLEANUP_THRESHOLD_SECONDS in
  if negb (OS.path_exists (upload_folder self) (disk w)) then (0, w)
  else
    let cleaned_count := 0 in
    match OS.listdir (upload_folder self) (disk w) with
    | Raise exc =>
        (cleaned_count, emit ("Error during cleanup: " +:+ exn_msg exc) w)
    | Ok names =>
        match sweep (upload_folder self) cutoff names (disk w) cleaned_count with
        | (None, cleaned_count, d) => (cleaned_count, with_disk d w)
        | (Some exc, cleaned_count, d) =>
            (cleaned_count,
             emit ("Error during cleanup: " +:+ exn_msg exc) (with_disk d w))
        end
    end.

(** *** Calls with positional arguments *)

(** [TypeError] of a call with too many positional arguments; [takes]
    and the count given include [self], as in Python's message. *)
Definition arity_error (name takes : string) (given : nat) : exn :=
  Exn TypeError
    ("AudioProcessor." +:+ name +:+ "() takes " +:+ takes +:+
     " positional arguments but " +:+ pretty (S given) +:+ " were given").

Definition type_error (name : string) : exn :=
  Exn TypeError ("AudioProcessor." +:+ name +:+ "(): expected str").

(** The object [AudioProcessor(upload_folder)] as the request layer
    calls it: [convert_format(input_path, target_format)],
    [merge_files(file_paths, output_format='mp3', crossfade_ms=0)],
    [export_with_settings(input_path, target_format, settings)],
    [get_audio_info(input_path)]. *)
Definition strs (l : list pyval) : option (list string) :=
  mapM (fun v => match v with PStr s => Some s | _ => None end) l.

Definition as_processor (self : t) : Processor := {|
  call_convert_format args :=
    match args with
    | [PStr input_path; PStr target_format] =>
        convert_format self input_path target_format
    | [_; _] => raise (type_error "convert_format")
    | _ => raise (arity_error "convert_format" "3" (length args))
    end;
  call_merge_files args :=
    match args with
    | [PList file_paths] =>
        match strs file_paths with
        | Some paths => merge_files self paths "mp3" 0
        | None => raise (type_error "merge_files")
        end
    | [PList file_paths; PStr output_format] =>
        match strs file_paths with
        | Some paths => merge_files self paths output_format 0
        | None => raise (type_error "merge_files")
        end
    | [PList file_paths; PStr output_format; PInt crossfade_ms] =>
        match strs file_paths with
        | Some paths => merge_files self paths output_format crossfade_ms
        | None => raise (type_error "merge_files")
        end
    | [_] | [_; _] | [_; _; _] => raise (type_error "merge_files")
    | _ => raise (arity_error "merge_files" "from 2 to 4" (length args))
    end;
  call_export_with_settings args :=
    match args with
    | [PStr input_path; PStr target_format; settings] =>
        export_with_settings self input_path target_format settings
    | [_; _; _] => raise (type_error "export_with_settings")
    | _ => raise (arity_error "export_with_settings" "4" (length args))
    end;
  call_get_audio_info args w :=
    match args with
    | [PStr input_path] => get_audio_info self input_path
    | [_] => Raise (type_error "get_audio_info")
    | _ => Raise (arity_error "get_audio_info" "2" (length args))
    end
|}.

End Methods.

Section Gain.
Context `{Externals}.

(** [audio + volume_change_db]: on a number, pydub's [+] applies a gain
    in dB. *)
Variable apply_gain : AudioSegment -> Q -> AudioSegment.

Definition adjust_volume (self : t) (input_path : string)
    (volume_change_db : Q) (output_format : string) : M string :=
  let* _ := lift (_validate_format output_format) in
  wrap_os_error "Volume adjustment failed: " (
    let* audio := lift (from_file input_path) in
    let adjusted_audio := apply_gain audio volume_change_db in
    let* output_path := _generate_output_path self "adjusted" output_format in
    let* _ := export adjusted_audio output_path
                [("format", PStr output_format)] in
    ret output_path).

End Gain.

End AudioProcessor.


(** ** backend/app.py *)

Module App.

(** An uploaded file ([werkzeug.FileStorage]); only its name is read. *)
Record upload := Upload { filename : string }.

(** A multipart request: the uploaded files and the form fields, each
    under its field name, in the order they were sent, and the length
    of the body in bytes. *)
Record request := Request {
  files : list (string * upload);
  form : list (string * string);
  content_length : Z
}.

Inductive body :=
| Json (v : pyval)
| Attachment (path download_name : string)
| ErrorPage (name : string).   (* the page Flask renders for an HTTPException *)

(** A response; [on_close] holds the paths that the function [cleanup]
    registered with [response.call_on_close] would remove. *)
Record response := Response {
  status : Z;
  payload : body;
  on_close : list (option string)
}.

(** What a handler did, in order: uploads written to disk, calls to the
    processor with their outcome, and exceptions that reached its
    [except Exception] branch. *)
Inductive op := OpConvert | OpMerge | OpExport | OpInfo.

Inductive outcome :=
| Returned (v : pyval)
| Raised (e : exn).

Inductive event :=
| Saved (path : string)
| Invoked (o : op) (args : list pyval) (r : outcome)
| Caught (e : exn).

Definition UPLOAD_FOLDER : string := "uploads".
Definition ALLOWED_EXTENSIONS : list string := ["wav"; "mp3"; "ogg"; "flac"].
Definition MAX_FILE_SIZE : Z := 50 * 1024 * 1024.

(** [request.files] and [request.form] parse the body when first read;
    with [MAX_CONTENT_LENGTH] set, a body longer than that makes them
    raise. *)
Definition parse_error (req : request) : option exn :=
  if MAX_FILE_SIZE <? content_length req then
    Some (Exn RequestEntityTooLarge
            ("413 Request Entity Too Large: The data value transmitted " +:+
             "exceeds the capacity limit."))
  else None.

(** The answer Flask gives when [RequestEntityTooLarge] leaves a view. *)
Definition too_large_response : response :=
  Response 413 (ErrorPage "Request Entity Too Large") [].

(** [request.files[name]] / [name in request.files] *)
Fixpoint files_get (name : string) (l : list (string * upload))
  : option upload :=
  match l with
  | [] => None
  | (k, f) :: rest => if String.eqb k name then Some f else files_get name rest
  end.

(** [request.files.getlist(name)] *)
Fixpoint files_getlist (name : string) (l : list (string * upload))
  : list upload :=
  match l with
  | [] => []
  | (k, f) :: rest =>
      if String.eqb k name then f :: files_getlist name rest
      else files_getlist name rest
  end.

(** [request.form.get(name)] *)
Fixpoint form_get (name : string) (l : list (string * string))
  : option string :=
  match l with
  | [] => None
  | (k, v) :: rest => if String.eqb k name then Some v else form_get name rest
  end.

(** [not x] for a form value that may be [None]. *)
Definition missing (x : option string) : bool :=
  match x with
  | None => true
  | Some s => String.eqb s ""
  end.

(** [jsonify({'error': msg}), code] *)
Definition error_response (code : Z) (msg : string) : response :=
  Response code (Json (PDict [("error", PStr msg)])) [].

(** [file.save(path)]: the upload is written out, or the system's
    refusal to open the destination is raised. *)
Definition save (path : string) (w : world) : result unit * world :=
  match OS.write_error path (disk w) with
  | Some e => (Raise e, w)
  | None => (Ok tt, write_file path w)
  end.

(** [send_file(path, as_attachment=True, download_name=name)]: the
    response that streams the file, or the error of reading it. *)
Definition send_file (path name : string) (d : gmap string OS.node)
  : result response :=
  match OS.read_error path d with
  | Some e => Raise e
  | None => Ok (Response 200 (Attachment path name) [])
  end.

(** [@response.call_on_close def cleanup(): _cleanup_paths(paths)] *)
Definition call_on_close (r : response) (paths : list (option string))
  : response :=
  Response (status r) (payload r) (on_close r ++ paths).

(** [any(kw in msg for kw in error_keywords)] *)
Definition any_keyword (error_keywords : list string) (msg : string) : bool :=
  existsb (fun kw => contains kw msg) error_keywords.

Definition allowed_file (filename : string) : bool :=
  has_char "." filename &&
  str_in (lower (nth 1 (rsplit1 "." filename) "")) ALLOWED_EXTENSIONS.

Fixpoint _cleanup_paths (paths : list (option string)) (w : world) : world :=
  match paths with
  | [] => w
  | path :: rest =>
      let w1 :=
        match path with
        | Some p =>
            if String.eqb p "" then w
            else
              match OS.remove p (disk w) with
              | Ok d => with_disk d w
              | Raise _ =>
                  emit ("Failed to remove file during cleanup: " +:+ p) w
              end
        | None => w
        end in
      _cleanup_paths rest w1
  end.

(** What the function [cleanup] registered on a response does when it
    is called.  Whether it is called is the server's business: the
    handlers only register it. *)
Definition cleanup (r : response) (w : world) : world :=
  _cleanup_paths (on_close r) w.

Definition health_check : response :=
  Response 200
    (Json (PDict [("status", PStr "healthy");
                  ("message", PStr "Backend is running")])) [].

Section Handlers.
Context `{Externals}.
Variable processor : Processor.

(** The [except Exception as exc] branch of [convert_audio], with the
    values [input_path] and [output_path] have when it is reached. *)
Definition convert_failed (input_path output_path : option string)
    (exc : exn) (w : world) (trace : list event)
  : response * world * list event :=
  let w := _cleanup_paths [input_path; output_path] w in
  (error_response 500 (exn_msg exc), w, trace ++ [Caught exc]).

Definition convert_audio (req : request) (w : world)
  : response * world * list event :=
  match parse_error req with
  | Some _ => (too_large_response, w, [])   (* raised outside the [try] *)
  | None =>
  match files_get "file" (files req) with
  | None => (error_response 400 "No file provided", w, [])
  | Some file =>
      let target_format := form_get "target_format" (form req) in
      if String.eqb (filename file) "" then
        (error_response 400 "No file selected", w, [])
      else if missing target_format then
        (error_response 400 "Missing target_format parameter", w, [])
      else
        let target_format := lower (default "" target_format) in
        if negb (allowed_file (filename file)) then
          (error_response 400 "Invalid file type", w, [])
        else if negb (str_in target_format ALLOWED_EXTENSIONS) then
          (error_response 400 "Invalid target format", w, [])
        else
          (* try: *)
          let '(unique_id, w) := uuid4 w in
          let input_filename :=
            secure_filename (unique_id +:+ "_input_" +:+ filename file) in
          let input_path := OS.path_join UPLOAD_FOLDER input_filename in
          match save input_path w with
          | (Raise exc, w) => convert_failed (Some input_path) None exc w []
          | (Ok _, w) =>
              let args := [PStr input_path; PStr target_format] in
              match call_convert_format processor args w with
              | (Raise exc, w) =>
                  convert_failed (Some input_path) None exc w
                    [Saved input_path; Invoked OpConvert args (Raised exc)]
              | (Ok output_path, w) =>
                  let trace :=
                    [Saved input_path;
                     Invoked OpConvert args (Returned (PStr output_path))] in
                  match send_file output_path
                          ("converted." +:+ target_format) (disk w) with
                  | Raise exc =>
                      convert_failed (Some input_path) (Some output_path)
                        exc w trace
                  | Ok response =>
                      (call_on_close response
                         [Some input_path; Some output_path], w, trace)
                  end
              end
          end
  end
  end.

(** The loop [for file in files] of [merge_audio].  It ends by falling
    through ([Ok None]), by the [return] on an invalid file
    ([Ok (Some response)]) or by an exception of [file.save]; the list
    is [file_paths] as the loop leaves it. *)
Fixpoint merge_save_loop (todo : list upload) (file_paths : list string)
    (w : world) (trace : list event)
  : result (option response) * list string * world * list event :=
  match todo with
  | [] => (Ok None, file_paths, w, trace)
  | file :: rest =>
      if negb (allowed_file (filename file)) then
        let w := _cleanup_paths (map Some file_paths) w in
        (Ok (Some (error_response 400
                     ("Invalid file type: " +:+ filename file))),
         file_paths, w, trace)
      else
        let '(unique_id, w) := uuid4 w in
        let name := secure_filename (unique_id +:+ "_" +:+ filename file) in
        let filepath := OS.path_join UPLOAD_FOLDER name in
        match save filepath w with
        | (Raise exc, w) => (Raise exc, file_paths, w, trace)
        | (Ok _, w) =>
            merge_save_loop rest (file_paths ++ [filepath]) w
              (trace ++ [Saved filepath])
        end
  end.

(** The [except Exception as exc] branch of [merge_audio]. *)
Definition merge_failed (file_paths : list string)
    (output_path : option string) (exc : exn) (w : world)
    (trace : list event) : response * world * list event :=
  let paths_to_clean :=
    map Some file_paths ++
    match output_path with
    | Some p => if String.eqb p "" then [] else [Some p]
    | None => []
    end in
  let w := _cleanup_paths paths_to_clean w in
  let error_keywords :=
    ["Invalid file"; "At least 2 files"; "Missing output_format"] in
  let status_code :=
    if any_keyword error_keywords (exn_msg exc) then 400 else 500 in
  (error_response status_code (exn_msg exc), w, trace ++ [Caught exc]).

Definition merge_audio (req : request) (w : world)
  : response * world * list event :=
  (* try: *)
  match parse_error req with
  | Some exc => merge_failed [] None exc w []
  | None =>
  let uploads := files_getlist "files[]" (files req) in
  if (length uploads <? 2)%nat then
    (error_response 400 "At least 2 files required for merging", w, [])
  else
    let output_format := form_get "output_format" (form req) in
    if missing output_format then
      (error_response 400 "Missing output_format parameter", w, [])
    else
      let output_format := lower (default "" output_format) in
      match merge_save_loop uploads [] w [] with
      | (Raise exc, file_paths, w, trace) =>
          merge_failed file_paths None exc w trace
      | (Ok (Some response), _, w, trace) => (response, w, trace)
      | (Ok None, file_paths, w, trace) =>
          let args := [PList (map PStr file_paths); PStr output_format] in
          match call_merge_files processor args w with
          | (Raise exc, w) =>
              merge_failed file_paths None exc w
                (trace ++ [Invoked OpMerge args (Raised exc)])
          | (Ok output_path, w) =>
              let trace :=
                trace ++
                [Invoked OpMerge args (Returned (PStr output_path))] in
              match send_file output_path ("merged." +:+ output_format)
                      (disk w) with
              | Raise exc =>
                  merge_failed file_paths (Some output_path) exc w trace
              | Ok response =>
                  (call_on_close response
                     (map Some file_paths ++
                      (if String.eqb output_path "" then []
                       else [Some output_path])), w, trace)
              end
          end
      end
  end.

(** The [except Exception as exc] branch of [export_audio]. *)
Definition export_failed (input_path output_path : option string)
    (exc : exn) (w : world) (trace : list event)
  : response * world * list event :=
  let w := _cleanup_paths [input_path; output_path] w in
  let error_keywords := ["Sample rate must be"; "Missing required"] in
  let status_code :=
    if any_keyword error_keywords (exn_msg exc) then 400 else 500 in
  (error_response status_code (exn_msg exc), w, trace ++ [Caught exc]).

Definition export_audio (req : request) (w : world)
  : response * world * list event :=
  match parse_error req with
  | Some _ => (too_large_response, w, [])   (* raised outside the [try] *)
  | None =>
  match files_get "file" (files req) with
  | None => (error_response 400 "No file provided", w, [])
  | Some file =>
      let output_format := form_get "format" (form req) in
      let bitrate := form_get "bitrate" (form req) in
      let sample_rate_str := form_get "sample_rate" (form req) in
      if missing output_format || missing bitrate || missing sample_rate_str
      then
        (error_response 400
           ("Missing required export settings " +:+
            "(format, bitrate, or sample_rate)"), w, [])
      else
        let output_format := lower (default "" output_format) in
        if negb (allowed_file (filename file)) then
          (error_response 400 "Invalid file type", w, [])
        else
          (* try: *)
          let '(unique_id, w) := uuid4 w in
          let input_filename :=
            secure_filename (unique_id +:+ "_" +:+ filename file) in
          let input_path := OS.path_join UPLOAD_FOLDER input_filename in
          match save input_path w with
          | (Raise exc, w) => export_failed (Some input_path) None exc w []
          | (Ok _, w) =>
              match int_of_str (default "" sample_rate_str) with
              | None =>
                  export_failed (Some input_path) None
                    (Exn ValueError "Sample rate must be an integer") w
                    [Saved input_path]
              | Some sample_rate =>
                  let args := [PStr input_path; PStr output_format;
                               PStr (default "" bitrate); PInt sample_rate] in
                  match call_export_with_settings processor args w with
                  | (Raise exc, w) =>
                      export_failed (Some input_path) None exc w
                        [Saved input_path;
                         Invoked OpExport args (Raised exc)]
                  | (Ok output_path, w) =>
                      let trace :=
                        [Saved input_path;
                         Invoked OpExport args
                           (Returned (PStr output_path))] in
                      match send_file output_path
                              ("export." +:+ output_format) (disk w) with
                      | Raise exc =>
                          export_failed (Some input_path)
                            (Some output_path) exc w trace
                      | Ok response =>
                          (call_on_close response
                             [Some input_path; Some output_path], w, trace)
                      end
                  end
              end
          end
  end
  end.

Definition get_metadata (req : request) (w : world)
  : response * world * list event :=
  (* try: *)
  match parse_error req with
  | Some exc =>
      (* except; [filepath] is still None in the finally *)
      (error_response 500 (exn_msg exc), w, [Caught exc])
  | None =>
  match files_get "file" (files req) with
  | None => (error_response 400 "No file provided", w, [])
  | Some file =>
      if negb (allowed_file (filename file)) then
        (error_response 400 "Invalid file type", w, [])
      else
        let '(unique_id, w) := uuid4 w in
        let name := secure_filename (unique_id +:+ "_" +:+ filename file) in
        let filepath := OS.path_join UPLOAD_FOLDER name in
        let '(resp, w, trace) :=
          match save filepath w with
          | (Raise exc, w) =>
              (error_response 500 (exn_msg exc), w, [Caught exc])
          | (Ok _, w) =>
              let args := [PStr filepath] in
              match call_get_audio_info processor args w with
              | Ok metadata =>
                  (Response 200 (Json (PDict metadata)) [], w,
                   [Saved filepath;
                    Invoked OpInfo args (Returned (PDict metadata))])
              | Raise exc =>
                  (error_response 500 (exn_msg exc), w,
                   [Saved filepath; Invoked OpInfo args (Raised exc);
                    Caught exc])
              end
          end in
        (* finally *)
        let w :=
          if String.eqb filepath "" then w
          else match OS.remove filepath (disk w) with
               | Ok d => with_disk d w
               | Raise _ => w
               end in
        (resp, w, trace)
  end
  end.

End Handlers.

End App.


(** ** Fixtures: concrete externals and processors for closed examples *)

Module Fixtures.

(** pydub as the tests stub it: a clip is its length in ms, every path
    decodes to a 5000 ms clip, every export succeeds; an append whose
    crossfade is longer than one of the clips raises; identifiers are
    [id0], [id1], ...; [secure_filename] leaves the (already safe)
    names alone.  The scenarios hold ASCII text only, so [int_unicode]
    is never consulted. *)
Definition crossfade_too_long (crossfade len : Z) : exn :=
  Exn ValueError
    ("Crossfade is longer than the original AudioSegment (" +:+
     pretty crossfade +:+ "ms > " +:+ pretty len +:+ "ms)").

Definition ideal : Externals := {|
  uuid4_hex n := "id" +:+ pretty n;
  secure_filename s := s;
  AudioSegment := Z;
  from_file _ := Ok 5000;
  seg_len a := a;
  seg_add a b := Ok (a + b);
  seg_append a b crossfade :=
    if crossfade >? a then Raise (crossfade_too_long crossfade a)
    else if crossfade >? b then Raise (crossfade_too_long crossfade b)
    else Ok (a + b - crossfade);
  seg_slice a s e := e - s;
  seg_set_frame_rate a _ := Ok a;
  normalize a := a;
  seg_channels _ := 2;
  seg_frame_rate _ := 44100;
  seg_sample_width _ := 2;
  seg_frame_count a := (inject_Z a * 441 / 10)%Q;
  seg_dBFS _ := (-20)%Q;
  export_error _ _ _ := None;
  export_leaves_file _ _ _ := false;
  int_unicode _ := None
|}.

(** The processor of audio_processor.py writing under [/tmp/out]. *)
Definition real : Processor :=
  @AudioProcessor.as_processor ideal (AudioProcessor.Build "/tmp/out").

(** A stand-in whose every operation raises [e] (a mock with
    [side_effect = e]). *)
Definition raising (e : exn) : Processor := {|
  call_convert_format _ w := (Raise e, w);
  call_merge_files _ w := (Raise e, w);
  call_export_with_settings _ w := (Raise e, w);
  call_get_audio_info _ _ := Raise e
|}.

(** A stand-in whose operations return [path] (a mock with
    [return_value = path]) and the metadata [md]. *)
Definition returning (path : string) (md : list (string * pyval))
  : Processor := {|
  call_convert_format _ w := (Ok path, w);
  call_merge_files _ w := (Ok path, w);
  call_export_with_settings _ w := (Ok path, w);
  call_get_audio_info _ _ := Ok md
|}.

(** An empty disk but for the two working directories, at time 10000. *)
Definition world0 : world :=
  World (<["uploads" := OS.directory 0]>
           (<["/tmp/out" := OS.directory 0]> ∅)) 10000 0 [].

(** The size of the body of the scenarios' requests, in bytes. *)
Definition small_body : Z := 2048.

(** [POST /export] with one upload and the three settings. *)
Definition export_request (name fmt bitrate sample_rate : string)
  : App.request :=
  App.Request [("file", App.Upload name)]
    [("format", fmt); ("bitrate", bitrate); ("sample_rate", sample_rate)]
    small_body.

(** [POST /merge] with the uploads [names] and the given form fields. *)
Definition merge_request (names : list string) (fields : list (string * string))
  : App.request :=
  App.Request (map (fun n => ("files[]", App.Upload n)) names) fields
    small_body.

(** [POST /convert] with one upload and a target format. *)
Definition convert_request (name target_format : string) : App.request :=
  App.Request [("file", App.Upload name)] [("target_format", target_format)]
    small_body.

(** [POST /metadata] with one upload. *)
Definition metadata_request (name : string) : App.request :=
  App.Request [("file", App.Upload name)] [] small_body.

(** An output folder at time 10000 (cutoff 6400) whose listing yields
    [c.wav] (recent), then [a.wav] (stale, removal refused), then [b.wav]
    (stale). *)
Definition stale_world : world :=
  World (<["/tmp/out/a.wav" := OS.Node false 100 true]>
           (<["/tmp/out/b.wav" := OS.regular_file 100]>
              (<["/tmp/out/c.wav" := OS.regular_file 9000]>
                 (<["/tmp/out" := OS.directory 0]> ∅)))) 10000 0 [].

(** The same folder holding one stale and one recent ordinary file. *)
Definition two_files_world : world :=
  World (<["/tmp/out/old_file.txt" := OS.regular_file 1800]>
           (<["/tmp/out/new_file.txt" := OS.regular_file 5400]>
              (<["/tmp/out" := OS.directory 0]> ∅))) 7200 0 [].


(** A working directory in which [uploads/] does not exist. *)
Definition no_uploads_world : world :=
  World (<["/tmp/out" := OS.directory 0]> ∅) 10000 0 [].

(** *** Scenarios: what the handlers answer *)

(** The request of [test_export_audio_success]. *)
Definition flac_export : App.request :=
  export_request "source.wav" "flac" "1411k" "96000".

(** ... against the processor of audio_processor.py, *)
Definition export_flac_real : App.response * world * list App.event :=
  App.export_audio (H := ideal) real flac_export world0.

(** ... against a stub that returns a path, *)
Definition export_flac_stub : App.response * world * list App.event :=
  App.export_audio (H := ideal) (returning "/tmp/exported.flac" [])
    flac_export world0.

(** ... and against a processor that cannot decode the upload. *)
Definition decode_failure : exn :=
  Exn RuntimeError "Decoding failed. ffmpeg returned error code: 1".

Definition export_flac_undecodable : App.response * world * list App.event :=
  App.export_audio (H := ideal) (raising decode_failure) flac_export world0.

(** [/export] and [/merge] asked for the format [txt]. *)
Definition export_txt_real : App.response * world * list App.event :=
  App.export_audio (H := ideal) real
    (export_request "source.wav" "txt" "128k" "44100") world0.

Definition merge_txt_real : App.response * world * list App.event :=
  App.merge_audio (H := ideal) real
    (merge_request ["track1.wav"; "track2.wav"] [("output_format", "txt")])
    world0.

(** [/merge] with one file, with two files, with two files and no
    [output_format], and with an invalid third file. *)
Definition merge_one : App.response * world * list App.event :=
  App.merge_audio (H := ideal) real
    (merge_request ["track1.wav"] [("output_format", "mp3")]) world0.

Definition merge_two : App.response * world * list App.event :=
  App.merge_audio (H := ideal) real
    (merge_request ["track1.wav"; "track2.wav"] [("output_format", "ogg")])
    world0.

Definition merge_no_format : App.response * world * list App.event :=
  App.merge_audio (H := ideal) real
    (merge_request ["track1.wav"; "track2.wav"] []) world0.


(** [/metadata] on a valid upload. *)
Definition metadata_mp3 : App.response * world * list App.event :=
  App.get_metadata (H := ideal) real (metadata_request "info.mp3") world0.

(** Trimming a decodable clip of 5000 ms from 1000 to 4000, to [txt]. *)
Definition trim_txt : result string * world :=
  AudioProcessor.trim_audio (H := ideal) (AudioProcessor.Build "/tmp/out")
    "/tmp/in.wav" 1000 4000 "txt" world0.

(** The sweep of the two output folders above. *)
Definition stale_cleanup : Z * world :=
  AudioProcessor.cleanup_old_files (AudioProcessor.Build "/tmp/out") stale_world.

Definition two_files_cleanup : Z * world :=
  AudioProcessor.cleanup_old_files (AudioProcessor.Build "/tmp/out")
    two_files_world.


(** [/merge] of a valid file and a pdf where [uploads/] is missing. *)
Definition merge_pdf_no_uploads : App.response * world * list App.event :=
  App.merge_audio (H := ideal) real
    (merge_request ["track1.wav"; "doc.pdf"] [("output_format", "ogg")])
    no_uploads_world.

(** An exception whose message holds a phrase of [/export] only. *)
Definition missing_codec : exn :=
  Exn AudioProcessingError "Missing required codec".

End Fixtures.

(** ** Vocabulary of the properties *)

(** The three routes that stream a processed file. *)
Inductive endpoint := Convert | Merge | Export.

Definition handle `{Externals} (ep : endpoint) (processor : Processor)
  : App.request -> world -> App.response * world * list App.event :=
  match ep with
  | Convert => App.convert_audio processor
  | Merge => App.merge_audio processor
  | Export => App.export_audio processor
  end.

(** The phrases that turn an exception of a route into a client error:
    the [error_keywords] of its [except] branch ([/convert] has none). *)
Definition client_error_phrases (ep : endpoint) : list string :=
  match ep with
  | Convert => []
  | Merge => ["Invalid file"; "At least 2 files"; "Missing output_format"]
  | Export => ["Sample rate must be"; "Missing required"]
  end.

Definition same_op (a b : App.op) : bool :=
  match a, b with
  | App.OpConvert, App.OpConvert | App.OpMerge, App.OpMerge
  | App.OpExport, App.OpExport | App.OpInfo, App.OpInfo => true
  | _, _ => false
  end.

Definition is_call (o : App.op) (ev : App.event) : bool :=
  match ev with
  | App.Invoked o' _ _ => same_op o o'
  | App.Saved _ | App.Caught _ => false
  end.

(** How many times a trace calls the operation [o]. *)
Fixpoint invocations (o : App.op) (trace : list App.event) : nat :=
  match trace with
  | [] => 0
  | ev :: rest =>
      if is_call o ev then S (invocations o rest) else invocations o rest
  end.

(** Whether a trace calls the processor at all. *)
Definition calls_processor (trace : list App.event) : Prop :=
  exists o args r, App.Invoked o args r ∈ trace.

(** The entry [name] of [folder] is a file last modified before [cutoff]. *)
Definition expired (folder : string) (cutoff : Z) (d : gmap string OS.node)
    (name : string) : bool :=
  match d !! OS.path_join folder name with
  | Some n => negb (OS.is_dir n) && (OS.mtime n <? cutoff)
  | None => false
  end.

(** ... and the system refuses to remove it. *)
Definition blocked (folder : string) (cutoff : Z) (d : gmap string OS.node)
    (name : string) : bool :=
  match d !! OS.path_join folder name with
  | Some n => negb (OS.is_dir n) && (OS.mtime n <? cutoff) && OS.denied n
  | None => false
  end.

(** A path that [_cleanup_paths] is sure to clear: it is not empty, and
    what the disk holds there, if anything, is a file the system lets go. *)
Definition clearable (d : gmap string OS.node) (p : string) : Prop :=
  p <> "" /\
  match d !! p with
  | Some n => OS.is_dir n = false /\ OS.denied n = false
  | None => True
  end.

(** An event that is not in a short explicit trace. *)
Ltac no_call Hin :=
  repeat (apply elem_of_cons in Hin as [Hin|Hin]; [try discriminate Hin|]);
  try (by apply elem_of_nil in Hin).

(** ** The stand-ins of audio_processor.py when pydub is missing

    The class [AudioSegment] and the function [normalize] that the module
    defines when [from pydub import ...] fails.  [from_file] raises
    before any other method can be reached. *)

Module Fallback.

Definition externals (uuid : nat -> string) (secure : string -> string)
  : Externals := {|
  uuid4_hex := uuid;
  secure_filename := secure;
  AudioSegment := unit;
  from_file _ := Raise (Exn NotImplementedError "pydub is not available");
  seg_len _ := 0;
  seg_add a _ := Ok a;
  seg_append a _ _ := Ok a;
  seg_slice a _ _ := a;
  seg_set_frame_rate a _ := Ok a;
  normalize a := a;
  seg_channels _ := 2;
  seg_frame_rate _ := 44100;
  seg_sample_width _ := 2;
  seg_frame_count _ := 0%Q;
  seg_dBFS _ := (-20)%Q;
  export_error _ _ _ := None;
  export_leaves_file _ _ _ := false;
  int_unicode _ := None   (* the processor never calls [int] *)
|}.

End Fallback.

(** ** Vocabulary of the further properties *)

(** The path an operation of the processor generates for its output
    when it starts in the world [w]. *)
Definition output_path_of `{Externals} (self : AudioProcessor.t)
    (suffix fmt : string) (w : world) : string :=
  OS.path_join (AudioProcessor.upload_folder self)
    (uuid4_hex (uuid_count w) +:+ "_" +:+ suffix +:+ "." +:+ fmt).

(** What an operation of the processor leaves behind, [w] being the
    world it started in.  The only path it can touch is the one it
    generates, [<folder>/<id>_<suffix>.<fmt>]: on success [fmt] is a
    supported format, that path is returned and the disk gained that
    one ordinary file; on failure the disk is as it was, or, [fmt] being
    supported, holds the file that the failed export had opened at that
    path.  Clock and console are never touched. *)
Definition writes_only_result `{Externals} (self : AudioProcessor.t)
    (suffix fmt : string) (w : world) (out : result string * world) : Prop :=
  let written :=
    <[output_path_of self suffix fmt w := OS.regular_file (clock w)]> (disk w) in
  match out.1 with
  | Ok path =>
      str_in (lower fmt) AudioProcessor.supported_formats = true /\
      path = output_path_of self suffix fmt w /\
      disk out.2 = written
  | Raise _ =>
      disk out.2 = disk w \/
      (str_in (lower fmt) AudioProcessor.supported_formats = true /\
       disk out.2 = written)
  end /\
  clock out.2 = clock w /\ console out.2 = console w.

(** A processor none of whose operations turns a path that could be
    cleared into one that cannot. *)
Definition keeps_removable (processor : Processor) : Prop :=
  forall (args : list pyval) (w : world) (p : string),
    clearable (disk w) p ->
    clearable (disk (call_convert_format processor args w).2) p /\
    clearable (disk (call_merge_files processor args w).2) p /\
    clearable (disk (call_export_with_settings processor args w).2) p.

(** The world in which the function [cleanup] that a handler registered
    on its response has been called, right after the handler returned.
    (Nothing in app.py calls it; test_app.py does so by hand.) *)
Definition cleaned_up (out : App.response * world * list App.event) : world :=
  App.cleanup out.1.1 out.1.2.

(** The system lets [p] be opened for writing on the disk [d]. *)
Definition writable (d : gmap string OS.node) (p : string) : Prop :=
  OS.write_error p d = None.

(** The uploads of a [/merge] request that the loop reaches and saves
    when no save fails: those before the first one of disallowed
    extension. *)
Fixpoint valid_prefix (todo : list App.upload) : list App.upload :=
  match todo with
  | [] => []
  | file :: rest =>
      if App.allowed_file (App.filename file) then file :: valid_prefix rest
      else []
  end.

(** Unfolds an operation of the processor down to the calls to pydub. *)
Ltac unfold_op :=
  unfold AudioProcessor.convert_format, AudioProcessor.merge_files,
    AudioProcessor.export_with_settings, AudioProcessor.trim_audio,
    AudioProcessor.adjust_volume,
    AudioProcessor.bind, AudioProcessor.lift, AudioProcessor.ret,
    AudioProcessor.raise, AudioProcessor.wrap_os_error,
    AudioProcessor._validate_format, AudioProcessor._generate_output_path,
    AudioProcessor.export, uuid4.

(** One case split on what pydub or a check answers, or one reduction. *)
Ltac step_op :=
  first
    [ match goal with
      | |- context [str_in (lower ?f) AudioProcessor.supported_formats] =>
          destruct (str_in (lower f) AudioProcessor.supported_formats) eqn:?
      | |- context [from_file ?p] => destruct (from_file p) as [?audio|?e0] eqn:?
      | |- context [AudioProcessor.merge_loop ?a ?l ?c] =>
          destruct (AudioProcessor.merge_loop a l c) as [?merged|?e1] eqn:?
      | |- context [AudioProcessor.settings_get ?s ?k ?d] =>
          destruct (AudioProcessor.settings_get s k d) as [?v|?e2] eqn:?
      | |- context [export_error ?a ?p ?q] =>
          destruct (export_error a p q) as [?ex|] eqn:?
      | |- context [export_leaves_file ?a ?p ?q] =>
          destruct (export_leaves_file a p q) eqn:?
      | |- context [seg_set_frame_rate ?a ?r] =>
          destruct (seg_set_frame_rate a r) as [?resampled|?e3] eqn:?
      | |- context [match ?v with PNone => _ | _ => _ end] =>
          is_var v; destruct v
      | |- context [is_os_error ?e] => destruct (is_os_error e) eqn:?
      | |- context [(?n <? 2)%nat] => destruct (n <? 2)%nat eqn:?
      | |- context [(?a <? 0) || ?b || ?c] => destruct ((a <? 0) || b || c) eqn:?
      end
    | progress simpl ].

(** Closes the goal that the exception [e] is not an [OSError] from the
    test that let it through. *)
Ltac not_os_error :=
  match goal with
  | Hos : is_os_error ?e = false |- _ =>
      unfold is_os_error in Hos; destruct (exn_cls e); done
  end.

(** *** Further scenarios *)

Module Scenarios.

(** [/convert] of [test.wav] to mp3, against the processor of
    audio_processor.py with every file decodable. *)
Definition convert_mp3 : App.response * world * list App.event :=
  App.convert_audio (H := Fixtures.ideal) Fixtures.real
    (Fixtures.convert_request "test.wav" "MP3") Fixtures.world0.

(** [/export] with a sample rate that is not a number. *)
Definition export_bad_rate : App.response * world * list App.event :=
  App.export_audio (H := Fixtures.ideal) Fixtures.real
    (Fixtures.export_request "source.wav" "flac" "1411k" "invalid_number")
    Fixtures.world0.

(** A processor working without pydub. *)
Definition fallback : Externals :=
  Fallback.externals (fun n => "id" +:+ pretty n) (fun s => s).

(** pydub on files it has no right to read: [from_file] raises an
    [OSError]. *)
Definition unreadable : Externals := {|
  uuid4_hex n := "id" +:+ pretty n;
  secure_filename s := s;
  AudioSegment := Z;
  from_file p := Raise (OS.os_error "[Errno 13] Permission denied" p);
  seg_len a := a;
  seg_add a b := Ok (a + b);
  seg_append a b crossfade := Ok (a + b - crossfade);
  seg_slice a s e := e - s;
  seg_set_frame_rate a _ := Ok a;
  normalize a := a;
  seg_channels _ := 2;
  seg_frame_rate _ := 44100;
  seg_sample_width _ := 2;
  seg_frame_count a := (inject_Z a * 441 / 10)%Q;
  seg_dBFS _ := (-20)%Q;
  export_error _ _ _ := None;
  export_leaves_file _ _ _ := false;
  int_unicode _ := None
|}.

End Scenarios.

(** *** How a route ends *)

(** The operation of the processor behind each route. *)
Definition op_of (ep : endpoint) : App.op :=
  match ep with
  | Convert => App.OpConvert
  | Merge => App.OpMerge
  | Export => App.OpExport
  end.

Definition call (ep : endpoint) (processor : Processor)
  : list pyval -> world -> result string * world :=
  match ep with
  | Convert => call_convert_format processor
  | Merge => call_merge_files processor
  | Export => call_export_with_settings processor
  end.

(** A path built as [os.path.join(UPLOAD_FOLDER, secure_filename(...))]. *)
Definition upload_path `{Externals} (p : string) : Prop :=
  exists s, p = OS.path_join App.UPLOAD_FOLDER (secure_filename s).

(** The ways the body of a route can end, [w] being the world the
    request arrived in:
    - [Rejected]: a check made before any upload is saved answers 400,
      or Flask answers 413 for a body that is too long;
    - [Stopped]: the loop of [/merge] met a file of disallowed extension
      and answered 400; the uploads saved until then are gone;
    - [Broke]: an exception reached the [except] branch before the
      processor was called (the body of a [/merge] request is too long,
      [file.save] raised, the sample rate is no integer); the uploads
      saved until then are gone;
    - [Failed]: the processor raised; the uploads were cleaned up at
      once;
    - [Unsent]: the processor returned [out] but [send_file] raised; the
      uploads and [out] were handed to the cleanup at once;
    - [Served]: the processor, called with the uploads on the disk,
      returned [out], a readable file, which is streamed; the uploads
      and [out] are handed to the function registered with
      [call_on_close].
    In the three cases of an exception the status follows the key
    phrases of the route. *)
Inductive ending `{Externals} (ep : endpoint) (processor : Processor)
    (w : world) : App.response * world * list App.event -> Prop :=
| Rejected (resp : App.response) :
    (exists msg, resp = App.error_response 400 msg) \/
    resp = App.too_large_response ->
    ending ep processor w (resp, w, [])
| Stopped (msg : string) (saved : list string) (w' : world) :
    Forall upload_path saved ->
    (forall p, p ∈ saved -> disk w' !! p = None) ->
    (saved = [] -> disk w' = disk w) ->
    ending ep processor w
      (App.error_response 400 msg, w', map App.Saved saved)
| Broke (saved : list string) (exc : exn) (w' : world) :
    Forall upload_path saved ->
    (forall p, p ∈ saved -> disk w' !! p = None) ->
    (saved = [] -> disk w' = disk w) ->
    ending ep processor w
      (App.error_response
         (if App.any_keyword (client_error_phrases ep) (exn_msg exc)
          then 400 else 500) (exn_msg exc),
       w', map App.Saved saved ++ [App.Caught exc])
| Failed (saved : list string) (args : list pyval) (w1 w2 : world)
    (exc : exn) :
    saved <> [] ->
    Forall upload_path saved ->
    (forall p, p ∈ saved -> clearable (disk w1) p) ->
    call ep processor args w1 = (Raise exc, w2) ->
    ending ep processor w
      (App.error_response
         (if App.any_keyword (client_error_phrases ep) (exn_msg exc)
          then 400 else 500) (exn_msg exc),
       App._cleanup_paths (map Some saved) w2,
       map App.Saved saved ++
       [App.Invoked (op_of ep) args (App.Raised exc); App.Caught exc])
| Unsent (saved : list string) (args : list pyval) (w1 w2 : world)
    (out : string) (exc : exn) (extra : list (option string)) :
    saved <> [] ->
    Forall upload_path saved ->
    (forall p, p ∈ saved -> clearable (disk w1) p) ->
    call ep processor args w1 = (Ok out, w2) ->
    OS.read_error out (disk w2) = Some exc ->
    ending ep processor w
      (App.error_response
         (if App.any_keyword (client_error_phrases ep) (exn_msg exc)
          then 400 else 500) (exn_msg exc),
       App._cleanup_paths (map Some saved ++ extra) w2,
       map App.Saved saved ++
       [App.Invoked (op_of ep) args (App.Returned (PStr out));
        App.Caught exc])
| Served (saved : list string) (args : list pyval) (w1 w2 : world)
    (out name : string) (extra : list (option string)) :
    saved <> [] ->
    Forall upload_path saved ->
    (forall p, p ∈ saved -> clearable (disk w1) p) ->
    (forall p, p ∈ saved -> exists t, disk w1 !! p = Some (OS.regular_file t)) ->
    call ep processor args w1 = (Ok out, w2) ->
    OS.read_error out (disk w2) = None ->
    (forall q, Some q ∈ extra -> q = out) ->
    (out <> "" -> Some out ∈ extra) ->
    ending ep processor w
      (App.Response 200 (App.Attachment out name) (map Some saved ++ extra),
       w2,
       map App.Saved saved ++
       [App.Invoked (op_of ep) args (App.Returned (PStr out))]).

(** The paths under which the loop of [/merge] saves the uploads
    [todo], the next identifier drawn being the [n]-th. *)
Fixpoint upload_paths `{Externals} (n : nat) (todo : list App.upload)
  : list string :=
  match todo with
  | [] => []
  | file :: rest =>
      OS.path_join App.UPLOAD_FOLDER
        (secure_filename (uuid4_hex n +:+ "_" +:+ App.filename file))
      :: upload_paths (S n) rest
  end.


(** * Properties *)

(** ** Strings *)

Section StringFacts.

Lemma has_char_app c s1 s2 :
  has_char c (s1 +:+ s2) = has_char c s1 || has_char c s2.
Proof.
  induction s1 as [|a s1 IH]; simpl; [done|].
  rewrite IH. by rewrite orb_assoc.
Qed.

Lemma rsplit1_no_sep c s : has_char c s = false -> rsplit1 c s = [s].
Proof.
  induction s as [|a s IH]; simpl; [done|].
  intros [Ha Hs]%orb_false_iff. rewrite (IH Hs). by rewrite Ha.
Qed.

(** Splitting at the last separator: the tail holds no separator. *)
Lemma rsplit1_at_last c pre ext :
  has_char c ext = false ->
  rsplit1 c (pre +:+ String c ext) = [pre; ext].
Proof.
  intros Hext. induction pre as [|a pre IH]; simpl.
  - rewrite (rsplit1_no_sep _ _ Hext). by rewrite Ascii.eqb_refl.
  - by rewrite IH.
Qed.

Lemma has_char_split c s :
  has_char c s = true ->
  exists pre ext, s = pre +:+ String c ext /\ has_char c ext = false.
Proof.
  induction s as [|a s IH]; simpl; [done|].
  destruct (has_char c s) eqn:Hs.
  - intros _. destruct (IH eq_refl) as (pre & ext & -> & Hext).
    by exists (String a pre), ext.
  - rewrite orb_false_r. intros ->%Ascii.eqb_eq.
    by exists EmptyString, s.
Qed.

Lemma str_in_elem_of x l : str_in x l = true <-> x ∈ l.
Proof.
  unfold str_in. rewrite existsb_exists. split.
  - intros (y & Hy & ->%String.eqb_eq). by apply list_elem_of_In.
  - intros Hx. exists x. split; [by apply list_elem_of_In|apply String.eqb_refl].
Qed.

End StringFacts.

(** ** The extension check at the boundary *)

(** C10. [allowed_file filename] holds exactly when the name contains a
    dot and the part after its last dot, lowercased, is one of wav, mp3,
    ogg, flac.  So an uppercase extension such as [track.WAV] passes and
    a name without extension does not. *)
Theorem allowed_file_iff (filename : string) :
  (App.allowed_file filename = true <->
   exists stem ext,
     filename = stem +:+ "." +:+ ext /\
     has_char "." ext = false /\
     lower ext ∈ ["wav"; "mp3"; "ogg"; "flac"]) /\
  App.allowed_file "track.WAV" = true /\
  App.allowed_file "noextension" = false.
Proof.
  split; [|done]. unfold App.allowed_file. split.
  - intros [Hdot Hin]%andb_true_iff.
    destruct (has_char_split _ _ Hdot) as (stem & ext & -> & Hext).
    exists stem, ext. split; [done|]. split; [done|].
    rewrite (rsplit1_at_last _ _ _ Hext) in Hin. cbn [nth] in Hin.
    by apply str_in_elem_of.
  - intros (stem & ext & -> & Hext & Hin).
    apply andb_true_iff. split.
    + rewrite has_char_app. simpl. apply orb_true_r.
    + change ("." +:+ ext) with (String "." ext).
      rewrite (rsplit1_at_last _ _ _ Hext). cbn [nth].
      by apply str_in_elem_of.
Qed.

(** ** Files written and removed by the request layer *)

Section DiskFacts.

Lemma path_join_uploads_nonempty (name : string) :
  OS.path_join App.UPLOAD_FOLDER name <> "".
Proof.
  unfold OS.path_join. destruct name as [|a name]; [done|].
  destruct (startswith "/" (String a name)); done.
Qed.

Lemma nonempty_eqb (s : string) : s <> "" -> String.eqb s "" = false.
Proof. intros Hs. by apply String.eqb_neq. Qed.

(** A file that was just written can be removed. *)
Lemma remove_after_write (p : string) (t : Z) (d : gmap string OS.node) :
  OS.remove p (<[p := OS.regular_file t]> d) = Ok (delete p d).
Proof.
  unfold OS.remove. rewrite lookup_insert_eq. simpl.
  by rewrite delete_insert_eq.
Qed.

(** A file that was just written can be read. *)
Lemma read_after_write (p : string) (t : Z) (d : gmap string OS.node) :
  OS.read_error p (<[p := OS.regular_file t]> d) = None.
Proof. unfold OS.read_error. by rewrite lookup_insert_eq. Qed.

(** A path that the system does not let be written cannot be removed
    either: nothing is there, or a directory, or a denied entry. *)
Lemma remove_after_refused_write (p : string) (d : gmap string OS.node)
    (e : exn) :
  OS.write_error p d = Some e -> p <> "" -> exists e', OS.remove p d = Raise e'.
Proof.
  unfold OS.write_error, OS.remove. intros Hw Hp.
  rewrite (nonempty_eqb p Hp) in Hw.
  destruct (d !! p) as [n|]; [|by eexists].
  destruct (OS.is_dir n); [by eexists|].
  destruct (OS.denied n); [by eexists|done].
Qed.

(** Writing [p] does not make another writable path unwritable. *)
Lemma write_preserved (p q : string) (t : Z) (d : gmap string OS.node) :
  OS.write_error p d = None -> OS.write_error q d = None ->
  OS.write_error q (<[p := OS.regular_file t]> d) = None.
Proof.
  intros Hp Hq. destruct (decide (q = p)) as [->|Hne].
  { unfold OS.write_error in *. destruct (String.eqb p ""); [done|].
    by rewrite lookup_insert_eq. }
  unfold OS.write_error in Hq |- *.
  destruct (String.eqb q ""); [done|].
  rewrite lookup_insert_ne by done.
  destruct (d !! q) as [n|]; [exact Hq|].
  destruct (String.eqb (OS.basename q) ""); [done|].
  destruct (_ <? _)%nat; [done|].
  destruct (String.eqb (OS.dirname q) "") eqn:Hdir; [done|].
  destruct (decide (p = OS.dirname q)) as [->|Hnp].
  - unfold OS.write_error in Hp. rewrite Hdir in Hp.
    destruct (d !! OS.dirname q) as [m|]; [|done].
    destruct (OS.is_dir m); done.
  - by rewrite lookup_insert_ne.
Qed.

End DiskFacts.

(** C9. Whenever [get_metadata] saved the upload, the saved file is gone
    from the disk when the handler returns, and this holds on both ways
    out: the 200 response carrying the metadata, and the 500 response of
    the exception path. *)
Theorem metadata_temp_file_removed `{Externals} (processor : Processor)
    (req : App.request) (w : world) (path : string) :
  App.Saved path ∈ (App.get_metadata processor req w).2 ->
  disk (App.get_metadata processor req w).1.2 !! path = None /\
  exists r,
    (App.get_metadata processor req w).2 =
      [App.Saved path; App.Invoked App.OpInfo [PStr path] r] ++
      match r with
      | App.Returned _ => []
      | App.Raised e => [App.Caught e]
      end /\
    match r with
    | App.Returned md =>
        (App.get_metadata processor req w).1.1 = App.Response 200 (App.Json md) []
    | App.Raised e =>
        (App.get_metadata processor req w).1.1 = App.error_response 500 (exn_msg e)
    end.
Proof.
  unfold App.get_metadata.
  destruct (App.parse_error req) as [exc|]; [intros Hin; no_call Hin|].
  destruct (App.files_get "file" (App.files req)) as [file|];
    [|by intros ?%elem_of_nil].
  destruct (negb (App.allowed_file (App.filename file)));
    [by intros ?%elem_of_nil|].
  cbv beta iota zeta delta [uuid4 App.save].
  set (fp := OS.path_join App.UPLOAD_FOLDER
               (secure_filename (uuid4_hex (uuid_count w) +:+ "_" +:+ App.filename file))).
  rewrite (nonempty_eqb fp) by apply path_join_uploads_nonempty.
  destruct (OS.write_error fp _) as [e|]; [intros Hin; no_call Hin|].
  destruct (call_get_audio_info processor _ _) as [md|exc];
    cbv beta iota zeta;
    match goal with
    | |- context [OS.remove fp (disk (write_file fp ?w1))] =>
        rewrite (remove_after_write fp (clock w1) (disk w1)
                 : OS.remove fp (disk (write_file fp w1)) = _)
    end;
    cbn [fst snd]; intros Hin.
  - assert (path = fp) as -> by (no_call Hin; congruence).
    split; [apply lookup_delete_eq|]. by exists (App.Returned (PDict md)).
  - assert (path = fp) as -> by (no_call Hin; congruence).
    split; [apply lookup_delete_eq|]. by exists (App.Raised exc).
Qed.

Lemma metadata_temp_file_removed_witness :
  App.status Fixtures.metadata_mp3.1.1 = 200 /\
  disk Fixtures.metadata_mp3.1.2 !! "uploads/id0_info.mp3" = None.
Proof.
  split; [reflexivity|].
  apply (@metadata_temp_file_removed Fixtures.ideal Fixtures.real
           (Fixtures.metadata_request "info.mp3") Fixtures.world0
           "uploads/id0_info.mp3").
  vm_compute. apply list_elem_of_here.
Defined.

(** ** The cleanup helper *)

Section Cleanup.

(** [_cleanup_paths] only removes: a path it leaves on the disk holds
    what it held before. *)
Lemma cleanup_lookup (paths : list (option string)) (w : world) (p : string) :
  disk (App._cleanup_paths paths w) !! p = None \/
  disk (App._cleanup_paths paths w) !! p = disk w !! p.
Proof.
  revert w. induction paths as [|[q|] paths IH]; intros w; simpl; auto.
  destruct (String.eqb q ""); [apply IH|].
  unfold OS.remove.
  destruct (disk w !! q) as [n|] eqn:Hq; [|exact (IH (emit _ w))].
  destruct (OS.is_dir n); [exact (IH (emit _ w))|].
  destruct (OS.denied n); [exact (IH (emit _ w))|].
  destruct (IH (with_disk (delete q (disk w)) w)) as [Hnone|Hsame]; [by left|].
  rewrite Hsame. simpl.
  destruct (decide (q = p)) as [->|Hne].
  - left. apply lookup_delete_eq.
  - right. by apply lookup_delete_ne.
Qed.

Lemma cleanup_keeps_absent (paths : list (option string)) (w : world) (p : string) :
  disk w !! p = None -> disk (App._cleanup_paths paths w) !! p = None.
Proof.
  intros Hp. destruct (cleanup_lookup paths w p) as [Hn|Hs]; [done|congruence].
Qed.

(** Every clearable path handed to [_cleanup_paths] is absent afterwards. *)
Lemma cleanup_clears (paths : list string) (w : world) (p : string) :
  (forall q, q ∈ paths -> clearable (disk w) q) ->
  p ∈ paths ->
  disk (App._cleanup_paths (map Some paths) w) !! p = None.
Proof.
  revert w. induction paths as [|a paths IH]; intros w Hall Hp.
  - by apply elem_of_nil in Hp.
  - simpl.
    destruct (Hall a (list_elem_of_here _ _)) as [Ha Hnode].
    rewrite (nonempty_eqb a Ha). unfold OS.remove.
    destruct (disk w !! a) as [n|] eqn:Hlook.
    + destruct Hnode as [-> ->].
      set (w1 := with_disk (delete a (disk w)) w).
      destruct (decide (p = a)) as [->|Hne].
      * apply cleanup_keeps_absent. apply lookup_delete_eq.
      * apply IH.
        -- intros q Hq. destruct (Hall q) as [Hq1 Hq2]; [by right|].
           split; [done|]. simpl.
           destruct (decide (a = q)) as [->|Hne'].
           ++ by rewrite lookup_delete_eq.
           ++ by rewrite lookup_delete_ne.
        -- apply elem_of_cons in Hp as [?|?]; done.
    + destruct (decide (p = a)) as [->|Hne].
      * by apply cleanup_keeps_absent.
      * apply IH.
        -- intros q Hq. apply Hall. by right.
        -- apply elem_of_cons in Hp as [?|?]; done.
Qed.

Lemma cleanup_untouched (paths : list (option string)) (w : world) (p : string) :
  Some p ∉ paths ->
  disk (App._cleanup_paths paths w) !! p = disk w !! p.
Proof.
  revert w. induction paths as [|[q|] paths IH]; intros w Hp; simpl; [done| |].
  - apply not_elem_of_cons in Hp as [Hne Hp].
    destruct (String.eqb q ""); [by apply IH|].
    unfold OS.remove. destruct (disk w !! q) as [n|] eqn:Hq;
      [|by rewrite (IH (emit _ w))].
    destruct (OS.is_dir n); [by rewrite (IH (emit _ w))|].
    destruct (OS.denied n); [by rewrite (IH (emit _ w))|].
    rewrite IH by done. simpl. apply lookup_delete_ne. congruence.
  - apply not_elem_of_cons in Hp as [_ Hp]. by apply IH.
Qed.

Lemma cleanup_keeps_clearable (paths : list (option string)) (w : world)
    (p : string) :
  clearable (disk w) p -> clearable (disk (App._cleanup_paths paths w)) p.
Proof.
  intros [Hne Hnode]. split; [done|].
  destruct (cleanup_lookup paths w p) as [->| ->]; done.
Qed.

(** A clearable path that is listed is absent afterwards, whatever else
    the list holds. *)
Lemma cleanup_clears_one (paths : list (option string)) (w : world)
    (p : string) :
  Some p ∈ paths -> clearable (disk w) p ->
  disk (App._cleanup_paths paths w) !! p = None.
Proof.
  revert w. induction paths as [|q paths IH]; intros w Hin Hp.
  - by apply elem_of_nil in Hin.
  - destruct (decide (q = Some p)) as [->|Hne].
    + simpl. destruct Hp as [Hp Hnode]. rewrite (nonempty_eqb p Hp).
      unfold OS.remove. destruct (disk w !! p) as [n|] eqn:Hlook.
      * destruct Hnode as [-> ->]. apply cleanup_keeps_absent.
        apply lookup_delete_eq.
      * by apply cleanup_keeps_absent.
    + apply elem_of_cons in Hin as [Heq|Hin]; [congruence|].
      change (App._cleanup_paths (q :: paths) w)
        with (App._cleanup_paths paths (App._cleanup_paths [q] w)).
      apply IH; [done|]. by apply cleanup_keeps_clearable.
Qed.

Lemma cleanup_clock (paths : list (option string)) (w : world) :
  clock (App._cleanup_paths paths w) = clock w /\
  uuid_count (App._cleanup_paths paths w) = uuid_count w.
Proof.
  revert w. induction paths as [|[q|] paths IH]; intros w; simpl; [done| |done].
  destruct (String.eqb q ""); [done|].
  destruct (OS.remove q (disk w)); by rewrite (proj1 (IH _)), (proj2 (IH _)).
Qed.

(** What [_cleanup_paths] does to the disk depends on the disk only. *)
Lemma cleanup_disk_congr (paths : list (option string)) (w1 w2 : world) :
  disk w1 = disk w2 ->
  disk (App._cleanup_paths paths w1) = disk (App._cleanup_paths paths w2).
Proof.
  revert w1 w2. induction paths as [|[q|] paths IH]; intros w1 w2 Hd; simpl;
    [done| |by apply IH].
  destruct (String.eqb q ""); [by apply IH|].
  rewrite Hd. destruct (OS.remove q (disk w2)); by apply IH.
Qed.

(** After a save that the system refused, the cleanup of the [except]
    branch finds nothing it can remove at that path. *)
Lemma cleanup_refused (p : string) (w : world) (e : exn)
    (rest : list (option string)) :
  OS.write_error p (disk w) = Some e ->
  disk (App._cleanup_paths (Some p :: rest) w)
  = disk (App._cleanup_paths rest w).
Proof.
  intros Hw. simpl. destruct (String.eqb p "") eqn:Hp; [done|].
  apply String.eqb_neq in Hp.
  destruct (remove_after_refused_write p (disk w) e Hw Hp) as [e' ->].
  by apply cleanup_disk_congr.
Qed.

(** A file that was just written where the system allowed it can be
    cleared. *)
Lemma written_clearable (p : string) (t : Z) (d : gmap string OS.node) :
  OS.write_error p d = None -> clearable (<[p := OS.regular_file t]> d) p.
Proof.
  intros Hw. split; [|by rewrite lookup_insert_eq].
  intros ->. by unfold OS.write_error in Hw.
Qed.

Lemma clearable_insert (d : gmap string OS.node) (q p : string) (t : Z) :
  clearable d p -> clearable (<[q := OS.regular_file t]> d) p.
Proof.
  intros [Hne Hnode]. split; [done|].
  destruct (decide (q = p)) as [->|Hqp].
  - by rewrite lookup_insert_eq.
  - by rewrite lookup_insert_ne.
Qed.

End Cleanup.

(** ** POST /merge *)

Section MergeLoop.
Context `{Externals}.

Lemma clearable_after_write (d : gmap string OS.node) (t : Z) (name p : string) :
  let fp := OS.path_join App.UPLOAD_FOLDER name in
  p = fp \/ clearable d p ->
  clearable (<[fp := OS.regular_file t]> d) p.
Proof.
  intros fp Hp. destruct (decide (fp = p)) as [<-|Hne].
  - split; [apply path_join_uploads_nonempty|]. by rewrite lookup_insert_eq.
  - destruct Hp as [->|[Hp1 Hp2]]; [done|].
    split; [done|]. by rewrite lookup_insert_ne.
Qed.

(** What the loop over the uploads of [/merge] yields.  It only adds
    [Saved] events, for the paths of the uploads it went through, in
    order.  When it falls through, every upload is of allowed
    extension, was saved and can still be cleared; when it returns on an
    invalid file, what it had saved is gone; when a save raises,
    [file_paths] holds what was saved until then, which can still be
    cleared. *)
Lemma merge_save_loop_shape (todo : list App.upload) :
  forall (file_paths : list string) (w : world) (trace : list App.event),
    (forall p, p ∈ file_paths -> clearable (disk w) p) ->
    exists new,
      (App.merge_save_loop todo file_paths w trace).2
        = trace ++ map App.Saved new /\
      Forall upload_path new /\
      match (App.merge_save_loop todo file_paths w trace).1.1.1 with
      | Ok None =>
          (App.merge_save_loop todo file_paths w trace).1.1.2
            = file_paths ++ new /\
          new = upload_paths (uuid_count w) todo /\
          Forall (fun f => App.allowed_file (App.filename f) = true) todo /\
          forall p, p ∈ file_paths ++ new ->
            clearable (disk (App.merge_save_loop todo file_paths w trace).1.2) p
      | Ok (Some resp) =>
          (exists name,
             resp = App.error_response 400 ("Invalid file type: " +:+ name)) /\
          Exists (fun f => App.allowed_file (App.filename f) = false) todo /\
          (new = [] ->
           (App.merge_save_loop todo file_paths w trace).1.2
             = App._cleanup_paths (map Some file_paths) w) /\
          forall p, p ∈ file_paths ++ new ->
            disk (App.merge_save_loop todo file_paths w trace).1.2 !! p = None
      | Raise exc =>
          (App.merge_save_loop todo file_paths w trace).1.1.2
            = file_paths ++ new /\
          (new = [] ->
           disk (App.merge_save_loop todo file_paths w trace).1.2 = disk w) /\
          forall p, p ∈ file_paths ++ new ->
            clearable (disk (App.merge_save_loop todo file_paths w trace).1.2) p
      end.
Proof.
  induction todo as [|file rest IH]; intros file_paths w trace Hinv.
  - exists []. simpl. rewrite !app_nil_r.
    split; [done|]. split; [constructor|]. split; [done|].
    split; [done|]. split; [constructor|exact Hinv].
  - simpl. destruct (App.allowed_file (App.filename file)) eqn:Hok; simpl.
    + set (fp := OS.path_join App.UPLOAD_FOLDER
                   (secure_filename
                      (uuid4_hex (uuid_count w) +:+ "_" +:+ App.filename file))).
      unfold App.save. cbn [disk].
      destruct (OS.write_error fp (disk w)) as [e|] eqn:Hw.
      * exists []. simpl. rewrite !app_nil_r.
        split; [done|]. split; [constructor|]. split; [done|].
        split; [done|exact Hinv].
      * match goal with
        | |- context [App.merge_save_loop rest _ ?w2 ?tr] =>
            destruct (IH (file_paths ++ [fp]) w2 tr) as (new & Htr & Hnew & Hres)
        end.
        { intros p Hp. simpl. apply clearable_after_write.
          apply elem_of_app in Hp as [Hp|Hp]; [right; by apply Hinv|].
          left. by apply list_elem_of_singleton in Hp. }
        exists (fp :: new). split; [rewrite Htr, <- app_assoc; reflexivity|].
        split; [constructor; [by eexists|done]|].
        destruct (App.merge_save_loop rest _ _ _) as [[[[[resp|]|exc] fps] w'] tr];
          simpl in *.
        -- destruct Hres as (Hresp & Hbad & _ & Hgone).
           split; [done|]. split; [by apply Exists_cons_tl|]. split; [done|].
           intros p Hp. apply Hgone. rewrite <- app_assoc. exact Hp.
        -- destruct Hres as (-> & -> & Hall & Hclear).
           split; [rewrite <- app_assoc; reflexivity|].
           split; [done|]. split; [by constructor|].
           intros p Hp. apply Hclear. rewrite <- app_assoc. exact Hp.
        -- destruct Hres as (-> & _ & Hclear).
           split; [rewrite <- app_assoc; reflexivity|]. split; [done|].
           intros p Hp. apply Hclear. rewrite <- app_assoc. exact Hp.
    + exists []. simpl. rewrite !app_nil_r. split; [done|].
      split; [constructor|]. split; [by eexists|].
      split; [by apply Exists_cons_hd|]. split; [done|].
      intros p Hp. by apply cleanup_clears.
Qed.

(** The loop meets no exception when the system lets every upload
    before the first invalid one be written. *)
Lemma merge_save_loop_no_raise (todo : list App.upload) :
  forall (file_paths : list string) (w : world) (trace : list App.event),
    Forall (writable (disk w)) (upload_paths (uuid_count w) (valid_prefix todo)) ->
    forall exc,
      (App.merge_save_loop todo file_paths w trace).1.1.1 <> Raise exc.
Proof.
  induction todo as [|file rest IH]; intros file_paths w trace Hall exc;
    [done|].
  simpl in *. destruct (App.allowed_file (App.filename file)); [|done].
  simpl in *. apply Forall_cons in Hall as [Hfp Hrest].
  unfold App.save. cbn [disk]. unfold writable in Hfp. rewrite Hfp.
  apply IH. simpl. eapply Forall_impl; [exact Hrest|].
  intros q Hq. by apply write_preserved.
Qed.

Lemma valid_prefix_all (todo : list App.upload) :
  Forall (fun f => App.allowed_file (App.filename f) = true) todo ->
  valid_prefix todo = todo.
Proof.
  induction 1 as [|f rest Hf _ IH]; simpl; [done|]. by rewrite Hf, IH.
Qed.

(** The uploads that the loop saved are on the disk when it falls
    through. *)
Lemma merge_save_loop_present (todo : list App.upload) :
  forall (file_paths : list string) (w : world) (trace : list App.event),
    (forall p, p ∈ file_paths ->
               exists t, disk w !! p = Some (OS.regular_file t)) ->
    match (App.merge_save_loop todo file_paths w trace).1.1.1 with
    | Ok None =>
        forall p,
          p ∈ (App.merge_save_loop todo file_paths w trace).1.1.2 ->
          exists t,
            disk (App.merge_save_loop todo file_paths w trace).1.2 !! p
            = Some (OS.regular_file t)
    | _ => True
    end.
Proof.
  induction todo as [|file rest IH]; intros file_paths w trace Hinv;
    [exact Hinv|].
  cbn [App.merge_save_loop]. destruct (negb (App.allowed_file _)); [done|].
  cbv beta iota zeta delta [uuid4 App.save]. cbn [disk].
  destruct (OS.write_error _ _); [done|].
  apply IH. intros p Hp. cbn [disk write_file with_disk].
  apply elem_of_app in Hp as [Hp|Hp%list_elem_of_singleton].
  - destruct (Hinv p Hp) as [t Ht].
    match goal with
    | |- context [<[?fp := _]> _] => destruct (decide (fp = p)) as [->|Hne]
    end.
    + eexists. apply lookup_insert_eq.
    + exists t. by rewrite lookup_insert_ne.
  - subst p. eexists. apply lookup_insert_eq.
Qed.

End MergeLoop.

Section Traces.

Lemma invocations_app (o : App.op) (t1 t2 : list App.event) :
  invocations o (t1 ++ t2) = (invocations o t1 + invocations o t2)%nat.
Proof.
  induction t1 as [|ev t1 IH]; simpl; [done|].
  destruct (is_call o ev); simpl; by rewrite IH.
Qed.

Lemma invocations_saved (o : App.op) (paths : list string) :
  invocations o (map App.Saved paths) = 0%nat.
Proof. induction paths as [|p paths IH]; simpl; done. Qed.

Lemma saved_only (paths : list string) (o : App.op) (args : list pyval)
    (r : App.outcome) :
  App.Invoked o args r ∉ map App.Saved paths.
Proof. intros (p & Heq & _)%list_elem_of_fmap. discriminate. Qed.

Lemma caught_not_saved (paths : list string) (e : exn) :
  App.Caught e ∉ map App.Saved paths.
Proof. intros (p & Heq & _)%list_elem_of_fmap. discriminate. Qed.

Lemma saved_elem_of (paths : list string) (p : string) :
  App.Saved p ∈ map App.Saved paths -> p ∈ paths.
Proof. intros (q & Heq & Hq)%list_elem_of_fmap. by injection Heq as ->. Qed.

Lemma valid_and_invalid (uploads : list App.upload) :
  Forall (fun f => App.allowed_file (App.filename f) = true) uploads ->
  Exists (fun f => App.allowed_file (App.filename f) = false) uploads ->
  False.
Proof.
  intros Hall (f & Hf & Hbad)%Exists_exists.
  rewrite Forall_forall in Hall. specialize (Hall f Hf). congruence.
Qed.

End Traces.

(** ** How the routes end *)

Section Endings.
Context `{Externals}.
Variable processor : Processor.

Lemma parse_ok (req : App.request) :
  App.content_length req <= App.MAX_FILE_SIZE -> App.parse_error req = None.
Proof.
  intros Hsize. unfold App.parse_error.
  destruct (Z.ltb_spec App.MAX_FILE_SIZE (App.content_length req)); [lia|done].
Qed.

Lemma convert_audio_ending (req : App.request) (w : world) :
  ending Convert processor w (App.convert_audio processor req w).
Proof.
  unfold App.convert_audio.
  destruct (App.parse_error req); [apply Rejected; by right|].
  destruct (App.files_get _ _) as [file|]; [|apply Rejected; left; by eexists].
  destruct (String.eqb _ _); [apply Rejected; left; by eexists|].
  destruct (App.missing _); [apply Rejected; left; by eexists|].
  destruct (negb (App.allowed_file _)); [apply Rejected; left; by eexists|].
  destruct (negb (str_in _ _)); [apply Rejected; left; by eexists|].
  cbv beta iota zeta delta [uuid4 App.save]. cbn [disk].
  match goal with
  | |- context [OS.write_error ?ip (disk w)] =>
      set (input_path := ip);
      destruct (OS.write_error input_path (disk w)) as [e|] eqn:Hw
  end; cbv beta iota zeta.
  - unfold App.convert_failed.
    apply (Broke Convert processor w [] e); [constructor| |].
    + by intros p ?%elem_of_nil.
    + intros _. rewrite (cleanup_refused input_path _ e [None]); [done|exact Hw].
  - assert (Forall upload_path [input_path]) as Hup
      by (constructor; [by eexists|constructor]).
    match goal with
    | |- context [call_convert_format processor ?args ?w1] =>
        assert (forall p, p ∈ [input_path] -> clearable (disk w1) p) as Hclear
          by (intros p ->%list_elem_of_singleton; by apply written_clearable);
        assert (forall p, p ∈ [input_path] ->
                  exists t, disk w1 !! p = Some (OS.regular_file t)) as Hpresent
          by (intros p ->%list_elem_of_singleton; eexists;
              apply lookup_insert_eq);
        destruct (call_convert_format processor args w1)
          as [[out|exc] w2] eqn:Hcall
    end; cbv beta iota zeta; unfold App.convert_failed.
    + unfold App.send_file.
      destruct (OS.read_error out (disk w2)) as [e|] eqn:Hread.
      * refine (Unsent Convert processor w [input_path] _ _ w2 out e
                        [Some out] _ Hup Hclear Hcall Hread); done.
      * refine (Served Convert processor w [input_path] _ _ w2 out _
                    [Some out] _ Hup Hclear Hpresent Hcall Hread _ _); [done| |].
        -- by intros q [= ->]%list_elem_of_singleton.
        -- intros _. apply list_elem_of_here.
    + refine (Failed Convert processor w [input_path] _ _ w2 exc
                _ Hup Hclear Hcall); done.
Qed.

Lemma export_audio_ending (req : App.request) (w : world) :
  ending Export processor w (App.export_audio processor req w).
Proof.
  unfold App.export_audio.
  destruct (App.parse_error req); [apply Rejected; by right|].
  destruct (App.files_get _ _) as [file|]; [|apply Rejected; left; by eexists].
  destruct (_ || _); [apply Rejected; left; by eexists|].
  destruct (negb (App.allowed_file _)); [apply Rejected; left; by eexists|].
  cbv beta iota zeta delta [uuid4 App.save]. cbn [disk].
  match goal with
  | |- context [OS.write_error ?ip (disk w)] =>
      set (input_path := ip);
      destruct (OS.write_error input_path (disk w)) as [e|] eqn:Hw
  end; cbv beta iota zeta.
  - unfold App.export_failed.
    apply (Broke Export processor w [] e); [constructor| |].
    + by intros p ?%elem_of_nil.
    + intros _. rewrite (cleanup_refused input_path _ e [None]); [done|exact Hw].
  - assert (Forall upload_path [input_path]) as Hup
      by (constructor; [by eexists|constructor]).
    destruct (int_of_str _) as [rate|].
    + match goal with
      | |- context [call_export_with_settings processor ?args ?w1] =>
          assert (forall p, p ∈ [input_path] -> clearable (disk w1) p) as Hclear
            by (intros p ->%list_elem_of_singleton; by apply written_clearable);
          assert (forall p, p ∈ [input_path] ->
                    exists t, disk w1 !! p = Some (OS.regular_file t)) as Hpresent
            by (intros p ->%list_elem_of_singleton; eexists;
                apply lookup_insert_eq);
          destruct (call_export_with_settings processor args w1)
            as [[out|exc] w2] eqn:Hcall
      end; cbv beta iota zeta; unfold App.export_failed.
      * unfold App.send_file.
        destruct (OS.read_error out (disk w2)) as [e|] eqn:Hread.
        -- refine (Unsent Export processor w [input_path] _ _ w2 out e
                        [Some out] _ Hup Hclear Hcall Hread); done.
        -- refine (Served Export processor w [input_path] _ _ w2 out _
                    [Some out] _ Hup Hclear Hpresent Hcall Hread _ _); [done| |].
           ++ by intros q [= ->]%list_elem_of_singleton.
           ++ intros _. apply list_elem_of_here.
      * refine (Failed Export processor w [input_path] _ _ w2 exc
                _ Hup Hclear Hcall); done.
    + unfold App.export_failed.
      apply (Broke Export processor w [input_path]
               (Exn ValueError "Sample rate must be an integer")); [done| |done].
      intros p ->%list_elem_of_singleton.
      apply cleanup_clears_one; [apply list_elem_of_here|].
      by apply written_clearable.
Qed.

Lemma merge_audio_ending (req : App.request) (w : world) :
  ending Merge processor w (App.merge_audio processor req w).
Proof.
  unfold App.merge_audio.
  destruct (App.parse_error req) as [exc|].
  { apply (Broke Merge processor w [] exc); [constructor| |done].
    by intros p ?%elem_of_nil. }
  destruct (_ <? 2)%nat eqn:Hmany; [apply Rejected; left; by eexists|].
  destruct (App.missing _); [apply Rejected; left; by eexists|].
  destruct (merge_save_loop_shape
              (App.files_getlist "files[]" (App.files req)) [] w [])
    as (new & Htr & Hnew & Hres).
  { by intros p ?%elem_of_nil. }
  pose proof (merge_save_loop_present
                (App.files_getlist "files[]" (App.files req)) [] w []) as Hpresent.
  destruct (App.merge_save_loop _ _ _ _) as [[[[[resp|]|exc] fps] w1] tr];
    simpl in Htr, Hres, Hpresent; subst tr.
  - destruct Hres as ((name & ->) & _ & Hw & Hgone).
    apply (Stopped Merge processor w _ new w1); [done|done|].
    intros ->. by rewrite (Hw eq_refl).
  - destruct Hres as (-> & Hpaths & Hall & Hclear).
    assert (new <> []) as Hne.
    { intros ->. apply (f_equal length) in Hpaths. revert Hpaths Hmany.
      destruct (App.files_getlist _ _) as [|f [|g l]]; simpl; done. }
    cbv beta iota zeta.
    match goal with
    | |- context [call_merge_files processor ?args w1] =>
        destruct (call_merge_files processor args w1)
          as [[out|exc] w2] eqn:Hcall
    end; cbv beta iota zeta.
    + unfold App.send_file.
      destruct (OS.read_error out (disk w2)) as [e|] eqn:Hread.
      * unfold App.merge_failed. rewrite <- app_assoc.
        refine (Unsent Merge processor w new _ w1 w2 out e _
                  Hne Hnew Hclear Hcall Hread).
      * refine (Served Merge processor w new _ w1 w2 out _
                  (if String.eqb out "" then [] else [Some out])
                  Hne Hnew Hclear _ Hcall Hread _ _).
        -- apply Hpresent. by intros p ?%elem_of_nil.
        -- intros q Hq. destruct (String.eqb out "").
           ++ by apply elem_of_nil in Hq.
           ++ by apply list_elem_of_singleton in Hq as [= ->].
        -- intros Hout. rewrite (nonempty_eqb out Hout). apply list_elem_of_here.
    + unfold App.merge_failed. rewrite app_nil_r, <- app_assoc.
      refine (Failed Merge processor w new _ w1 w2 exc
                Hne Hnew Hclear Hcall).
  - destruct Hres as (-> & Hw & Hclear).
    unfold App.merge_failed. rewrite app_nil_r.
    apply (Broke Merge processor w new exc); [done| |].
    + intros p Hp. by apply cleanup_clears.
    + intros ->. simpl. by apply Hw.
Qed.

(** Every request to one of the three routes ends in one of the ways
    of [ending]. *)
Lemma handle_ending (ep : endpoint) (req : App.request) (w : world) :
  ending ep processor w (handle ep processor req w).
Proof.
  destruct ep; [apply convert_audio_ending|apply merge_audio_ending
               |apply export_audio_ending].
Qed.

End Endings.

Lemma invoked_not_caught (caught : list exn) (o : App.op) (args : list pyval)
    (r : App.outcome) :
  App.Invoked o args r ∉ map App.Caught caught.
Proof.
  induction caught as [|e caught IH]; simpl; [apply not_elem_of_nil|].
  intros [Heq|Hin]%elem_of_cons; [discriminate|by apply IH].
Qed.

Lemma some_elem_of (paths : list string) (p : string) :
  p ∈ paths -> Some p ∈ map Some paths.
Proof.
  induction paths as [|a paths IH]; simpl; [by intros ?%elem_of_nil|].
  intros [->|Hin]%elem_of_cons;
    [apply list_elem_of_here|by apply list_elem_of_further, IH].
Qed.

Lemma saved_before_call (saved : list string) (p : string)
    (rest : list App.event) :
  (forall q, App.Saved q ∉ rest) ->
  App.Saved p ∈ map App.Saved saved ++ rest -> p ∈ saved.
Proof.
  intros Hrest [Hin|Hin]%elem_of_app; [by apply saved_elem_of|].
  by apply Hrest in Hin.
Qed.




(** C5, amended. A [/merge] request within the size limit with exactly
    one file is answered 400 with the message "At least 2 files required
    for merging" and no call to the processor.  A request within the
    size limit with two or more files, all of allowed extension, and a
    non-empty [output_format], whose uploads the system lets be written,
    calls the processor's merge operation exactly once. *)
Theorem merge_file_count `{Externals} (processor : Processor)
    (req : App.request) (w : world) :
  App.content_length req <= App.MAX_FILE_SIZE ->
  (length (App.files_getlist "files[]" (App.files req)) = 1%nat ->
   (App.merge_audio processor req w).1.1 =
     App.error_response 400 "At least 2 files required for merging" /\
   invocations App.OpMerge (App.merge_audio processor req w).2 = 0%nat) /\
  ((2 <= length (App.files_getlist "files[]" (App.files req)))%nat ->
   Forall (fun f => App.allowed_file (App.filename f) = true)
          (App.files_getlist "files[]" (App.files req)) ->
   forall fmt, App.form_get "output_format" (App.form req) = Some fmt ->
   fmt <> "" ->
   Forall (writable (disk w))
     (upload_paths (uuid_count w)
        (App.files_getlist "files[]" (App.files req))) ->
   invocations App.OpMerge (App.merge_audio processor req w).2 = 1%nat).
Proof.
  intros Hsize. unfold App.merge_audio. rewrite (parse_ok req Hsize). split.
  - intros ->. done.
  - intros Hlen Hall fmt Hfmt Hne Hwritable.
    destruct (Nat.ltb_spec (length (App.files_getlist "files[]" (App.files req))) 2)
      as [Hlt|_]; [lia|].
    rewrite Hfmt. unfold App.missing. rewrite (nonempty_eqb fmt Hne).
    destruct (merge_save_loop_shape
                (App.files_getlist "files[]" (App.files req)) [] w [])
      as (new & Htr & _ & Hres); [by intros p ?%elem_of_nil|].
    pose proof (merge_save_loop_no_raise
                  (App.files_getlist "files[]" (App.files req)) [] w [])
      as Hsaves.
    rewrite (valid_prefix_all _ Hall) in Hsaves.
    destruct (App.merge_save_loop _ _ _ _) as [[[[[resp|]|exc] fps] w1] tr];
      simpl in Htr, Hres, Hsaves; subst tr.
    + destruct Hres as (_ & Hbad & _). destruct (valid_and_invalid _ Hall Hbad).
    + cbv beta iota zeta.
      destruct (call_merge_files processor _ w1) as [[output_path|exc] w2];
        cbv beta iota zeta.
      * destruct (App.send_file _ _ _); unfold App.merge_failed; cbn [snd];
          rewrite !invocations_app, invocations_saved; reflexivity.
      * unfold App.merge_failed. cbn [snd].
        rewrite !invocations_app, invocations_saved. reflexivity.
    + by destruct (Hsaves Hwritable exc).
Qed.

Lemma merge_file_count_witness :
  Fixtures.merge_one.1.1 =
    App.error_response 400 "At least 2 files required for merging" /\
  invocations App.OpMerge Fixtures.merge_two.2 = 1%nat.
Proof.
  assert (Fixtures.small_body <= App.MAX_FILE_SIZE) as Hsize
    by (vm_compute; discriminate).
  split.
  - apply (@merge_file_count Fixtures.ideal Fixtures.real
             (Fixtures.merge_request ["track1.wav"]
                [("output_format", "mp3")]) Fixtures.world0 Hsize).
    reflexivity.
  - apply (@merge_file_count Fixtures.ideal Fixtures.real
             (Fixtures.merge_request ["track1.wav"; "track2.wav"]
                [("output_format", "ogg")]) Fixtures.world0 Hsize)
      with (fmt := "ogg").
    + simpl. lia.
    + simpl. repeat constructor.
    + reflexivity.
    + discriminate.
    + repeat constructor.
Defined.

(** C5 as stated fails: two files of allowed extension but no
    [output_format] are answered 400 and the merge operation is not
    called. *)
Lemma merge_without_output_format :
  forallb (fun n => App.allowed_file n) ["track1.wav"; "track2.wav"] = true /\
  Fixtures.merge_no_format.1.1 =
    App.error_response 400 "Missing output_format parameter" /\
  invocations App.OpMerge Fixtures.merge_no_format.2 = 0%nat.
Proof. vm_compute. done. Qed.

(** ** POST /export *)

(** C1 fails against the processor of audio_processor.py.  The request
    of [test_export_audio_success] (a wav upload, format flac, bitrate
    1411k, sample rate 96000) passes every check of the route, which
    saves the upload and calls [export_with_settings] with four
    positional arguments; the method takes three, so the call raises
    [TypeError] and the answer is 500 instead of 200. *)
Theorem export_test_request_raises_type_error :
  App.allowed_file "source.wav" = true /\
  int_of_str (H := Fixtures.ideal) "96000" = Some 96000 /\
  Fixtures.export_flac_real.1.1 =
    App.error_response 500
      ("AudioProcessor.export_with_settings() takes 4 positional " +:+
       "arguments but 5 were given") /\
  Fixtures.export_flac_real.2 =
    [App.Saved "uploads/id0_source.wav";
     App.Invoked App.OpExport
       [PStr "uploads/id0_source.wav"; PStr "flac"; PStr "1411k"; PInt 96000]
       (App.Raised (AudioProcessor.arity_error "export_with_settings" "4" 4));
     App.Caught (AudioProcessor.arity_error "export_with_settings" "4" 4)].
Proof. vm_compute. done. Qed.

(** ** Exceptions of the processing layer *)

(** C3, amended. When an exception reaches the [except] branch of a
    route, the body of the answer carries its message and the status
    depends on the route: [/convert] answers 500 whatever the message;
    [/merge] answers 400 if the message holds "Invalid file", "At least
    2 files" or "Missing output_format" and 500 otherwise; [/export]
    answers 400 if it holds "Sample rate must be" or "Missing required"
    and 500 otherwise. *)
Theorem exception_status_by_endpoint `{Externals} (ep : endpoint)
    (processor : Processor) (req : App.request) (w : world) (e : exn) :
  App.Caught e ∈ (handle ep processor req w).2 ->
  (handle ep processor req w).1.1 =
    App.error_response
      (if App.any_keyword (client_error_phrases ep) (exn_msg e)
       then 400 else 500)
      (exn_msg e).
Proof.
  destruct (handle_ending processor ep req w)
    as [resp _|msg saved w' _ _ _|saved exc w' _ _ _
       |saved args w1 w2 exc _ _ _ _
       |saved args w1 w2 out exc extra _ _ _ _ _
       |saved args w1 w2 out name extra _ _ _ _ _ _ _ _]; cbn [fst snd];
    intros Hin.
  - by apply elem_of_nil in Hin.
  - by apply caught_not_saved in Hin.
  - apply elem_of_app in Hin as [Hin|Hin];
      [by apply caught_not_saved in Hin|].
    by apply list_elem_of_singleton in Hin as [= ->].
  - apply elem_of_app in Hin as [Hin|Hin];
      [by apply caught_not_saved in Hin|].
    no_call Hin. by injection Hin as ->.
  - apply elem_of_app in Hin as [Hin|Hin];
      [by apply caught_not_saved in Hin|].
    no_call Hin. by injection Hin as ->.
  - apply elem_of_app in Hin as [Hin|Hin];
      [by apply caught_not_saved in Hin|].
    no_call Hin.
Qed.

Lemma exception_status_by_endpoint_witness :
  Fixtures.export_flac_undecodable.1.1 =
    App.error_response 500 "Decoding failed. ffmpeg returned error code: 1".
Proof.
  apply (@exception_status_by_endpoint Fixtures.ideal Export
           (Fixtures.raising Fixtures.decode_failure) Fixtures.flac_export
           Fixtures.world0 Fixtures.decode_failure).
  vm_compute. apply list_elem_of_further, list_elem_of_further, list_elem_of_here.
Defined.

(** C3 as stated fails: no single list of client-error phrases gives the
    status of all three routes.  An exception whose message reads
    "Missing required codec" is a 400 on [/export] and a 500 on
    [/convert]. *)
Lemma classification_not_uniform :
  ~ exists phrases : list string,
      forall (ep : endpoint) (processor : Processor) (req : App.request)
             (w : world) (e : exn),
        App.Caught e ∈ (handle (H := Fixtures.ideal) ep processor req w).2 ->
        App.status (handle (H := Fixtures.ideal) ep processor req w).1.1 =
          if App.any_keyword phrases (exn_msg e) then 400 else 500.
Proof.
  intros [phrases Hall].
  pose proof (Hall Export (Fixtures.raising Fixtures.missing_codec)
                Fixtures.flac_export Fixtures.world0
                Fixtures.missing_codec) as Hexport.
  pose proof (Hall Convert (Fixtures.raising Fixtures.missing_codec)
                (Fixtures.convert_request "test.wav" "mp3") Fixtures.world0
                Fixtures.missing_codec) as Hconvert.
  assert (App.status
            (handle (H := Fixtures.ideal) Export
               (Fixtures.raising Fixtures.missing_codec)
               Fixtures.flac_export Fixtures.world0).1.1 = 400) as Hs1
    by (vm_compute; reflexivity).
  assert (App.status
            (handle (H := Fixtures.ideal) Convert
               (Fixtures.raising Fixtures.missing_codec)
               (Fixtures.convert_request "test.wav" "mp3")
               Fixtures.world0).1.1 = 500) as Hs2
    by (vm_compute; reflexivity).
  rewrite Hs1 in Hexport. rewrite Hs2 in Hconvert.
  assert (App.any_keyword phrases (exn_msg Fixtures.missing_codec) = true) as Hk.
  { destruct (App.any_keyword phrases (exn_msg Fixtures.missing_codec)); [done|].
    exfalso. enough (400 = 500) by done. apply Hexport.
    vm_compute.
    apply list_elem_of_further, list_elem_of_further, list_elem_of_here. }
  rewrite Hk in Hconvert.
  enough (500 = 400) by done. apply Hconvert.
  vm_compute. apply list_elem_of_further, list_elem_of_further, list_elem_of_here.
Qed.

(** ** Validation of the requested format *)

(** [/convert] turns down a target format outside the allowed set before
    anything is saved or the processor called. *)
Lemma convert_rejects_unsupported_format `{Externals} (processor : Processor)
    (req : App.request) (w : world) :
  App.content_length req <= App.MAX_FILE_SIZE ->
  (forall fmt, App.form_get "target_format" (App.form req) = Some fmt ->
               str_in (lower fmt) App.ALLOWED_EXTENSIONS = false) ->
  App.status (App.convert_audio processor req w).1.1 = 400 /\
  (App.convert_audio processor req w).2 = [].
Proof.
  intros Hsize Hfmt. unfold App.convert_audio. rewrite (parse_ok req Hsize).
  destruct (App.files_get _ _) as [file|]; [|done].
  destruct (String.eqb _ _); [done|].
  destruct (App.form_get "target_format" (App.form req)) as [fmt|] eqn:Hget;
    [|done].
  unfold App.missing. destruct (String.eqb fmt ""); [done|].
  change (default "" (Some fmt)) with fmt.
  destruct (negb (App.allowed_file _)); [done|].
  by rewrite (Hfmt fmt eq_refl).
Qed.

(** C2 fails on [/merge] and [/export]: asked for the format [txt], which
    is not in the allowed set, both save the upload and call the
    processor, and the answer is 500. *)
Theorem unsupported_format_reaches_processor :
  str_in "txt" App.ALLOWED_EXTENSIONS = false /\
  Fixtures.merge_txt_real.1.1 =
    App.error_response 500
      "Unsupported format: txt. Supported formats: wav, mp3, ogg, flac, m4a" /\
  invocations App.OpMerge Fixtures.merge_txt_real.2 = 1%nat /\
  App.status Fixtures.export_txt_real.1.1 = 500 /\
  invocations App.OpExport Fixtures.export_txt_real.2 = 1%nat.
Proof. vm_compute. done. Qed.

(** ** Trimming *)

(** C7, amended. Once the input is decoded, [trim_audio] raises a
    [ValueError] whenever the start is negative, the end is past the
    duration, or the start is not before the end.  On a 5000 ms clip,
    trimming from 1000 to 4000 to a supported format, with an export
    that goes through, returns the path of a new file in the output
    folder named [<id>_trimmed.<ext>], [<ext>] being the requested
    format. *)
Theorem trim_audio_range `{Externals} (self : AudioProcessor.t)
    (input_path : string) (start_ms end_ms : Z) (output_format : string)
    (w : world) (audio : AudioSegment) :
  from_file input_path = Ok audio ->
  (start_ms < 0 \/ end_ms > seg_len audio \/ start_ms >= end_ms ->
   exists exc,
     AudioProcessor.trim_audio self input_path start_ms end_ms output_format w
       = (Raise exc, w) /\
     exn_cls exc = ValueError) /\
  (seg_len audio = 5000 ->
   str_in (lower output_format) AudioProcessor.supported_formats = true ->
   (forall path params,
      export_error (seg_slice audio 1000 4000) path params = None) ->
   exists output_path w',
     AudioProcessor.trim_audio self input_path 1000 4000 output_format w
       = (Ok output_path, w') /\
     output_path =
       OS.path_join (AudioProcessor.upload_folder self)
         (uuid4_hex (uuid_count w) +:+ "_trimmed" +:+ "." +:+ output_format) /\
     disk w' !! output_path = Some (OS.regular_file (clock w))).
Proof.
  intros Hfile.
  unfold AudioProcessor.trim_audio, AudioProcessor.bind, AudioProcessor.lift,
    AudioProcessor.wrap_os_error, AudioProcessor._validate_format.
  split.
  - intros Hrange.
    destruct (negb (str_in (lower output_format) _)); [by eexists|].
    rewrite Hfile.
    assert ((start_ms <? 0) || (end_ms >? seg_len audio) || (start_ms >=? end_ms)
            = true) as ->.
    { rewrite !orb_true_iff, Z.ltb_lt, Z.gtb_gt, Z.geb_ge. tauto. }
    by eexists.
  - intros Hlen Hfmt Hexport. rewrite Hfmt, Hfile, Hlen. simpl.
    unfold AudioProcessor.export. rewrite Hexport. simpl.
    eexists _, _. split; [reflexivity|]. split; [reflexivity|].
    apply lookup_insert_eq.
Qed.

Lemma trim_audio_range_witness :
  (exists exc,
     AudioProcessor.trim_audio (H := Fixtures.ideal)
       (AudioProcessor.Build "/tmp/out") "/tmp/in.wav" 0 6000 "wav"
       Fixtures.world0 = (Raise exc, Fixtures.world0) /\
     exn_cls exc = ValueError) /\
  (AudioProcessor.trim_audio (H := Fixtures.ideal)
     (AudioProcessor.Build "/tmp/out") "/tmp/in.wav" 1000 4000 "wav"
     Fixtures.world0).1 = Ok "/tmp/out/id0_trimmed.wav".
Proof.
  split.
  - apply (@trim_audio_range Fixtures.ideal (AudioProcessor.Build "/tmp/out")
             "/tmp/in.wav" 0 6000 "wav" Fixtures.world0 5000 eq_refl).
    right. left. simpl. lia.
  - destruct (@trim_audio_range Fixtures.ideal (AudioProcessor.Build "/tmp/out")
                "/tmp/in.wav" 1000 4000 "wav" Fixtures.world0 5000 eq_refl)
      as [_ Hok].
    destruct Hok as (output_path & w' & Heq & Hpath & _);
      [reflexivity|reflexivity|reflexivity|].
    rewrite Heq, Hpath. reflexivity.
Defined.

(** C7 as stated fails: on a 5000 ms clip, trimming from 1000 to 4000
    does not succeed when the requested extension is [txt]; the format
    check raises before anything is written. *)
Lemma trim_to_unsupported_format :
  Fixtures.trim_txt =
    (Raise (Exn ValueError
              "Unsupported format: txt. Supported formats: wav, mp3, ogg, flac, m4a"),
     Fixtures.world0).
Proof. vm_compute. reflexivity. Qed.

(** ** The sweep of the output folder *)

Section Listing.

Lemma append_inj_l (p a b : string) : p +:+ a = p +:+ b -> a = b.
Proof.
  induction p as [|c p IH]; simpl; [done|]. intros [= Heq]. by apply IH.
Qed.

Lemma strip_prefix_Some (p s n : string) :
  OS.strip_prefix p s = Some n -> s = p +:+ n.
Proof.
  revert s. induction p as [|a p IH]; intros s; simpl.
  - by intros [= ->].
  - destruct s as [|b s]; [done|].
    destruct (Ascii.eqb_spec a b) as [->|]; [|done].
    intros Hs. by rewrite (IH s Hs).
Qed.

Lemma child_name_Some (folder p n : string) :
  OS.child_name folder p = Some n ->
  p = OS.dir_prefix folder +:+ n /\ has_char "/" n = false.
Proof.
  unfold OS.child_name.
  destruct (OS.strip_prefix _ _) as [m|] eqn:Hs; [|done].
  destruct (negb (String.eqb m "") && negb (has_char "/" m)) eqn:Hc; [|done].
  intros [= <-]. apply strip_prefix_Some in Hs. split; [done|].
  apply andb_true_iff in Hc as [_ Hc]. by apply negb_true_iff.
Qed.

(** Joining a folder and a name without slash puts the name behind the
    folder's prefix. *)
Lemma path_join_child (folder n : string) :
  has_char "/" n = false -> OS.path_join folder n = OS.dir_prefix folder +:+ n.
Proof.
  unfold OS.path_join. destruct n as [|a n]; [done|].
  cbn [has_char startswith]. intros [Ha _]%orb_false_iff.
  destruct (Ascii.eqb_spec "/" a) as [<-|]; [|done].
  by rewrite Ascii.eqb_refl in Ha.
Qed.

Lemma path_join_inj (folder a b : string) :
  has_char "/" a = false -> has_char "/" b = false ->
  OS.path_join folder a = OS.path_join folder b -> a = b.
Proof.
  intros Ha Hb. rewrite !path_join_child by done. apply append_inj_l.
Qed.

(** What [os.listdir] yields: distinct names without slash, each of an
    entry that is on the disk. *)
Lemma listdir_entries (folder : string) (d : gmap string OS.node)
    (names : list string) :
  OS.listdir folder d = Ok names ->
  NoDup names /\
  forall n, n ∈ names ->
            has_char "/" n = false /\ is_Some (d !! OS.path_join folder n).
Proof.
  unfold OS.listdir. destruct (d !! folder) as [nd|]; [|done].
  destruct (negb (OS.is_dir nd)); [done|]. destruct (OS.denied nd); [done|].
  intros [= <-]. split.
  - generalize (NoDup_fst_map_to_list d).
    induction (map_to_list d) as [|[p x] l IH]; simpl; intros Hnd.
    + constructor.
    + apply NoDup_cons in Hnd as [Hp Hl].
      destruct (OS.child_name folder p) as [n|] eqn:Hc; [|by apply IH].
      apply NoDup_cons. split; [|by apply IH].
      intros ([q y] & Hkv & Hf)%list_elem_of_omap. simpl in Hf.
      apply child_name_Some in Hc as [-> _], Hf as [-> _].
      apply Hp. apply list_elem_of_fmap. by exists (OS.dir_prefix folder +:+ n, y).
  - intros n ([p x] & Hkv & Hf)%list_elem_of_omap. simpl in Hf.
    apply child_name_Some in Hf as [-> Hs]. split; [done|].
    rewrite path_join_child by done.
    apply elem_of_map_to_list in Hkv. by exists x.
Qed.

Lemma expired_agree (folder : string) (cutoff : Z)
    (d1 d2 : gmap string OS.node) (n : string) :
  d1 !! OS.path_join folder n = d2 !! OS.path_join folder n ->
  expired folder cutoff d1 n = expired folder cutoff d2 n.
Proof. unfold expired. by intros ->. Qed.

Lemma blocked_agree (folder : string) (cutoff : Z)
    (d1 d2 : gmap string OS.node) (n : string) :
  d1 !! OS.path_join folder n = d2 !! OS.path_join folder n ->
  blocked folder cutoff d1 n = blocked folder cutoff d2 n.
Proof. unfold blocked. by intros ->. Qed.

End Listing.

Section Sweep.

(** One step of the loop on an entry that is not expired: it is skipped. *)
Lemma sweep_skip (folder : string) (cutoff : Z) (a : string)
    (rest : list string) (d : gmap string OS.node) (c : Z) :
  is_Some (d !! OS.path_join folder a) ->
  expired folder cutoff d a = false ->
  AudioProcessor.sweep folder cutoff (a :: rest) d c =
    AudioProcessor.sweep folder cutoff rest d c.
Proof.
  intros [na Hlook]. unfold expired. rewrite Hlook. intros Hexp. simpl.
  unfold OS.path_isdir, OS.getmtime. rewrite Hlook.
  destruct (OS.is_dir na); [done|]. simpl in Hexp. by rewrite Hexp.
Qed.

(** ... on an expired entry that the system lets go: it is removed. *)
Lemma sweep_remove (folder : string) (cutoff : Z) (a : string)
    (rest : list string) (d : gmap string OS.node) (c : Z) :
  expired folder cutoff d a = true ->
  blocked folder cutoff d a = false ->
  AudioProcessor.sweep folder cutoff (a :: rest) d c =
    AudioProcessor.sweep folder cutoff rest
      (delete (OS.path_join folder a) d) (c + 1).
Proof.
  unfold expired, blocked. simpl.
  unfold OS.path_isdir, OS.getmtime, OS.remove.
  destruct (d !! OS.path_join folder a) as [na|]; [|done].
  intros [Hdir Hold]%andb_true_iff. rewrite Hdir, Hold. simpl.
  intros ->. apply negb_true_iff in Hdir. by rewrite Hdir.
Qed.

(** ... on an expired entry whose removal is refused: the loop ends. *)
Lemma sweep_blocked (folder : string) (cutoff : Z) (a : string)
    (rest : list string) (d : gmap string OS.node) (c : Z) :
  blocked folder cutoff d a = true ->
  exists e, AudioProcessor.sweep folder cutoff (a :: rest) d c = (Some e, c, d).
Proof.
  unfold blocked. simpl. unfold OS.path_isdir, OS.getmtime, OS.remove.
  destruct (d !! OS.path_join folder a) as [na|]; [|done].
  intros [[Hdir Hold]%andb_true_iff Hden]%andb_true_iff.
  apply negb_true_iff in Hdir. rewrite Hdir, Hold, Hden. by eexists.
Qed.

(** The loop over a listing [pre ++ post] in which no entry of [pre] is
    blocked and [post] is empty or starts with a blocked entry. *)
Lemma sweep_prefix (folder : string) (cutoff : Z) (pre post : list string) :
  forall (d : gmap string OS.node) (c : Z),
    NoDup (pre ++ post) ->
    (forall n, n ∈ pre ++ post ->
               has_char "/" n = false /\ is_Some (d !! OS.path_join folder n)) ->
    Forall (fun n => blocked folder cutoff d n = false) pre ->
    (post = [] \/
     exists b rest, post = b :: rest /\ blocked folder cutoff d b = true) ->
    exists err d',
      AudioProcessor.sweep folder cutoff (pre ++ post) d c =
        (err,
         c + Z.of_nat (length (List.filter (expired folder cutoff d) pre)),
         d') /\
      (forall n, n ∈ pre -> expired folder cutoff d n = true ->
                 d' !! OS.path_join folder n = None) /\
      (forall p,
         (forall n, n ∈ pre -> expired folder cutoff d n = true ->
                    p <> OS.path_join folder n) ->
         d' !! p = d !! p) /\
      (err = None <-> post = []).
Proof.
  induction pre as [|a pre IH]; intros d c Hnd Hin Hpre Hpost.
  - simpl. rewrite Z.add_0_r. destruct Hpost as [->|(b & rest & -> & Hb)].
    + exists None, d. split; [done|]. split; [by intros n ?%elem_of_nil|]. done.
    + destruct (sweep_blocked folder cutoff b rest d c Hb) as [e He].
      exists (Some e), d. split; [done|].
      split; [by intros n ?%elem_of_nil|]. done.
  - apply Forall_cons in Hpre as [Ha Hpre].
    change ((a :: pre) ++ post) with (a :: (pre ++ post)) in *.
    apply NoDup_cons in Hnd as [Hnotin Hnd].
    destruct (Hin a (list_elem_of_here _ _)) as [Hslash Hlook].
    assert (forall n, n ∈ pre -> n ∈ pre ++ post) as Hleft
      by (intros n Hn; apply elem_of_app; by left).
    destruct (expired folder cutoff d a) eqn:Hexp.
    + rewrite (sweep_remove _ _ _ _ _ _ Hexp Ha).
      set (pa := OS.path_join folder a).
      assert (forall n, n ∈ pre ++ post ->
                delete pa d !! OS.path_join folder n
                = d !! OS.path_join folder n) as Hsame.
      { intros n Hn. apply lookup_delete_ne. intros Heq.
        apply path_join_inj in Heq; [|done|by apply Hin; right].
        by subst. }
      destruct (IH (delete pa d) (c + 1))
        as (err & d' & Heq & Hgone & Hkeep & Herr).
      * done.
      * intros n Hn. rewrite (Hsame n Hn). apply Hin. by right.
      * rewrite Forall_forall in Hpre |- *. intros n Hn.
        rewrite <- (Hpre n Hn). apply blocked_agree, Hsame, Hleft, Hn.
      * destruct Hpost as [->|(b & rest & -> & Hb)]; [by left|].
        right. exists b, rest. split; [done|]. rewrite <- Hb.
        apply blocked_agree, Hsame. apply elem_of_app. right. by left.
      * assert (List.filter (expired folder cutoff (delete pa d)) pre
                = List.filter (expired folder cutoff d) pre) as Hfilter.
        { apply filter_ext_in. intros n Hn%list_elem_of_In.
          apply expired_agree, Hsame, Hleft, Hn. }
        exists err, d'. split.
        { rewrite Heq, Hfilter. simpl. rewrite Hexp. cbn [length].
          do 2 f_equal. lia. }
        split.
        { intros n [->|Hn]%elem_of_cons Hn'.
          - rewrite Hkeep; [apply lookup_delete_eq|].
            intros m Hm _ Heq'.
            apply path_join_inj in Heq'; [|done|by apply Hin; right; apply Hleft].
            subst. by apply Hnotin, Hleft.
          - apply Hgone; [done|]. rewrite <- Hn'.
            apply expired_agree, Hsame, Hleft, Hn. }
        split; [|done].
        intros p Hp. rewrite Hkeep.
        -- apply lookup_delete_ne. intros <-.
           by apply (Hp a (list_elem_of_here _ _) Hexp).
        -- intros m Hm Hm'. apply Hp; [by right|]. rewrite <- Hm'.
           symmetry. apply expired_agree, Hsame, Hleft, Hm.
    + rewrite (sweep_skip _ _ _ _ _ _ Hlook Hexp).
      destruct (IH d c) as (err & d' & Heq & Hgone & Hkeep & Herr);
        [done|by intros n Hn; apply Hin; right|done|done|].
      exists err, d'. split; [rewrite Heq; simpl; by rewrite Hexp|].
      split.
      { intros n [->|Hn]%elem_of_cons Hn'; [congruence|by apply Hgone]. }
      split; [|done].
      intros p Hp. apply Hkeep. intros m Hm Hm'. apply Hp; [by right|done].
Qed.

End Sweep.

Section CleanupOldFiles.

Lemma snoc_neq {A} (l : list A) (x : A) : l ++ [x] <> l.
Proof.
  intros Heq. apply (f_equal length) in Heq. rewrite length_app in Heq.
  simpl in Heq. lia.
Qed.

Lemma listdir_exists (folder : string) (d : gmap string OS.node)
    (names : list string) :
  OS.listdir folder d = Ok names -> OS.path_exists folder d = true.
Proof.
  unfold OS.listdir, OS.path_exists. by destruct (d !! folder).
Qed.

(** [cleanup_old_files] on a folder whose listing is [pre ++ post], no
    entry of [pre] being blocked and [post] being empty or starting with
    a blocked entry. *)
Lemma cleanup_old_files_spec (self : AudioProcessor.t) (w : world)
    (pre post : list string) :
  OS.listdir (AudioProcessor.upload_folder self) (disk w) = Ok (pre ++ post) ->
  Forall (fun n => blocked (AudioProcessor.upload_folder self)
                     (clock w - 3600) (disk w) n = false) pre ->
  (post = [] \/
   exists b rest,
     post = b :: rest /\
     blocked (AudioProcessor.upload_folder self) (clock w - 3600) (disk w) b
       = true) ->
  (AudioProcessor.cleanup_old_files self w).1 =
    Z.of_nat (length (List.filter
                        (expired (AudioProcessor.upload_folder self)
                           (clock w - 3600) (disk w)) pre)) /\
  (forall n,
     n ∈ pre ->
     expired (AudioProcessor.upload_folder self) (clock w - 3600) (disk w) n
       = true ->
     disk (AudioProcessor.cleanup_old_files self w).2
       !! OS.path_join (AudioProcessor.upload_folder self) n = None) /\
  (forall p,
     (forall n,
        n ∈ pre ->
        expired (AudioProcessor.upload_folder self) (clock w - 3600) (disk w) n
          = true ->
        p <> OS.path_join (AudioProcessor.upload_folder self) n) ->
     disk (AudioProcessor.cleanup_old_files self w).2 !! p = disk w !! p) /\
  (forall n,
     n ∈ post ->
     disk (AudioProcessor.cleanup_old_files self w).2
       !! OS.path_join (AudioProcessor.upload_folder self) n
     = disk w !! OS.path_join (AudioProcessor.upload_folder self) n) /\
  (console (AudioProcessor.cleanup_old_files self w).2 = console w
   <-> post = []).
Proof.
  intros Hlist Hpre Hpost.
  destruct (listdir_entries _ _ _ Hlist) as [Hnd Hin].
  destruct (sweep_prefix (AudioProcessor.upload_folder self) (clock w - 3600)
              pre post (disk w) 0 Hnd Hin Hpre Hpost)
    as (err & d' & Heq & Hgone & Hkeep & Herr).
  assert (forall n, n ∈ post ->
            d' !! OS.path_join (AudioProcessor.upload_folder self) n
            = disk w !! OS.path_join (AudioProcessor.upload_folder self) n)
    as Hpost_kept.
  { intros n Hn. apply Hkeep. intros m Hm _ Heq'.
    apply path_join_inj in Heq';
      [|by apply Hin, elem_of_app; right|by apply Hin, elem_of_app; left].
    subst. apply NoDup_app in Hnd as (_ & Hdisj & _). by apply (Hdisj m). }
  unfold AudioProcessor.cleanup_old_files, AudioProcessor.CLEANUP_THRESHOLD_SECONDS.
  rewrite (listdir_exists _ _ _ Hlist), Hlist. simpl. rewrite Heq.
  rewrite Z.add_0_l.
  destruct err as [e|]; simpl.
  - split; [done|]. split; [done|]. split; [done|].
    split; [exact Hpost_kept|].
    split; [by intros ?%snoc_neq|].
    intros Hnil. by apply Herr in Hnil.
  - split; [done|]. split; [done|]. split; [done|].
    split; [exact Hpost_kept|].
    split; [intros _; by apply Herr|done].
Qed.

End CleanupOldFiles.

(** C4, amended. [cleanup_old_files] walks the listing of the output
    folder in order and removes each file (not directory) last modified
    more than an hour ago, up to the first one whose removal the system
    refuses.  It returns the number of files removed.  When no removal
    is refused ([post] empty) every such file of the folder is removed
    and nothing is printed; when one is, the error is printed, the
    function still returns the count, and that entry and the entries
    listed after it are left as they were.  Nothing else on the disk
    changes. *)
Theorem cleanup_old_files_sweep (self : AudioProcessor.t) (w : world)
    (pre post : list string) :
  OS.listdir (AudioProcessor.upload_folder self) (disk w) = Ok (pre ++ post) ->
  Forall (fun n => blocked (AudioProcessor.upload_folder self)
                     (clock w - 3600) (disk w) n = false) pre ->
  (post = [] \/
   exists b rest,
     post = b :: rest /\
     blocked (AudioProcessor.upload_folder self) (clock w - 3600) (disk w) b
       = true) ->
  (AudioProcessor.cleanup_old_files self w).1 =
    Z.of_nat (length (List.filter
                        (expired (AudioProcessor.upload_folder self)
                           (clock w - 3600) (disk w)) pre)) /\
  (forall n,
     n ∈ pre ->
     expired (AudioProcessor.upload_folder self) (clock w - 3600) (disk w) n
       = true ->
     disk (AudioProcessor.cleanup_old_files self w).2
       !! OS.path_join (AudioProcessor.upload_folder self) n = None) /\
  (forall p,
     (forall n,
        n ∈ pre ->
        expired (AudioProcessor.upload_folder self) (clock w - 3600) (disk w) n
          = true ->
        p <> OS.path_join (AudioProcessor.upload_folder self) n) ->
     disk (AudioProcessor.cleanup_old_files self w).2 !! p = disk w !! p) /\
  (forall n,
     n ∈ post ->
     disk (AudioProcessor.cleanup_old_files self w).2
       !! OS.path_join (AudioProcessor.upload_folder self) n
     = disk w !! OS.path_join (AudioProcessor.upload_folder self) n) /\
  (console (AudioProcessor.cleanup_old_files self w).2 = console w
   <-> post = []).
Proof. apply cleanup_old_files_spec. Qed.

Lemma cleanup_old_files_sweep_witness :
  Fixtures.stale_cleanup.1 = 0 /\
  disk Fixtures.stale_cleanup.2 !! "/tmp/out/b.wav" = Some (OS.regular_file 100).
Proof.
  destruct (cleanup_old_files_sweep (AudioProcessor.Build "/tmp/out")
              Fixtures.stale_world ["c.wav"] ["a.wav"; "b.wav"])
    as (Hcount & _ & _ & Hpost & _).
  - vm_compute. reflexivity.
  - repeat constructor.
  - right. exists "a.wav", ["b.wav"]. split; reflexivity.
  - split; [exact Hcount|].
    change "/tmp/out/b.wav" with (OS.path_join "/tmp/out" "b.wav").
    unfold Fixtures.stale_cleanup. rewrite Hpost; [reflexivity|].
    apply list_elem_of_further, list_elem_of_here.
Defined.

(** C4 as stated fails: the listing yields [c.wav], [a.wav], [b.wav];
    [a.wav] and [b.wav] are files older than the threshold; the removal
    of [a.wav] is refused.  The sweep ends there: it returns 0 and
    [b.wav], which comes after the failing entry, is still on the disk. *)
Lemma cleanup_stops_at_first_error :
  OS.listdir "/tmp/out" (disk Fixtures.stale_world)
    = Ok ["c.wav"; "a.wav"; "b.wav"] /\
  blocked "/tmp/out" (clock Fixtures.stale_world - 3600)
    (disk Fixtures.stale_world) "a.wav" = true /\
  expired "/tmp/out" (clock Fixtures.stale_world - 3600)
    (disk Fixtures.stale_world) "b.wav" = true /\
  blocked "/tmp/out" (clock Fixtures.stale_world - 3600)
    (disk Fixtures.stale_world) "b.wav" = false /\
  Fixtures.stale_cleanup.1 = 0 /\
  disk Fixtures.stale_cleanup.2 !! "/tmp/out/b.wav" = Some (OS.regular_file 100).
Proof. vm_compute. done. Qed.





(** * Further properties *)

(** ** The extension check and the keyword match *)

Section MoreStringFacts.

Lemma lower_ascii_dot (a : ascii) :
  Ascii.eqb (lower_ascii a) "." = Ascii.eqb a ".".
Proof. by destruct a as [[] [] [] [] [] [] [] []]. Qed.

Lemma lower_ascii_idem (a : ascii) : lower_ascii (lower_ascii a) = lower_ascii a.
Proof. by destruct a as [[] [] [] [] [] [] [] []]. Qed.

Lemma lower_idem (s : string) : lower (lower s) = lower s.
Proof.
  induction s as [|a s IH]; [done|].
  cbn [lower]. by rewrite lower_ascii_idem, IH.
Qed.

Lemma has_char_lower (s : string) : has_char "." (lower s) = has_char "." s.
Proof.
  induction s as [|a s IH]; [done|].
  cbn [lower has_char]. by rewrite lower_ascii_dot, IH.
Qed.

Lemma rsplit1_lower (s : string) :
  rsplit1 "." (lower s) = map lower (rsplit1 "." s).
Proof.
  induction s as [|a s IH]; [done|].
  cbn [lower rsplit1]. rewrite IH, lower_ascii_dot.
  destruct (rsplit1 "." s) as [|hd [|x tl]]; [done| |done].
  cbn [map]. by destruct (Ascii.eqb a ".").
Qed.

Lemma allowed_file_lower (filename : string) :
  App.allowed_file (lower filename) = App.allowed_file filename.
Proof.
  unfold App.allowed_file. rewrite has_char_lower, rsplit1_lower.
  change "" with (lower "") at 1. by rewrite map_nth, lower_idem.
Qed.

Lemma startswith_iff (p s : string) :
  startswith p s = true <-> exists post, s = p +:+ post.
Proof.
  revert s. induction p as [|a p IH]; intros s; cbn [startswith].
  - split; [by exists s|done].
  - destruct s as [|b s].
    + split; [done|]. by intros [post Heq].
    + rewrite andb_true_iff, Ascii.eqb_eq, IH. split.
      * intros [-> [post ->]]. by exists post.
      * intros [post Heq]. injection Heq as -> ->. split; [done|by exists post].
Qed.

Lemma contains_iff (needle hay : string) :
  contains needle hay = true <->
  exists pre post, hay = pre +:+ needle +:+ post.
Proof.
  induction hay as [|a hay IH].
  - cbn [contains]. rewrite orb_false_r, startswith_iff. split.
    + intros [post Heq]. by exists "", post.
    + intros ([|c pre] & post & Heq); [by exists post|done].
  - cbn [contains]. rewrite orb_true_iff, startswith_iff, IH. split.
    + intros [[post Heq]|(pre & post & ->)].
      * by exists "", post.
      * by exists (String a pre), post.
    + intros ([|c pre] & post & Heq).
      * left. by exists post.
      * right. injection Heq as -> ->. by exists pre, post.
Qed.

End MoreStringFacts.

(** X1. [allowed_file] does not look at letter case: two names that are
    equal once lowercased are both accepted or both refused. *)
Theorem allowed_file_ignores_case (f g : string) :
  lower f = lower g -> App.allowed_file f = App.allowed_file g.
Proof.
  intros Heq. by rewrite <- (allowed_file_lower f), Heq, allowed_file_lower.
Qed.

Lemma allowed_file_ignores_case_witness :
  App.allowed_file "Track.Mp3" = App.allowed_file "TRACK.MP3".
Proof. apply allowed_file_ignores_case. reflexivity. Defined.

(** X2. The keyword test of the [except] branches is a substring test:
    a message matches exactly when one of the keywords occurs somewhere
    in it, letter for letter.  So a lowercase "invalid file" does not
    match the keyword "Invalid file". *)
Theorem any_keyword_substring (error_keywords : list string) (msg : string) :
  (App.any_keyword error_keywords msg = true <->
   exists kw pre post, kw ∈ error_keywords /\ msg = pre +:+ kw +:+ post) /\
  App.any_keyword ["Invalid file"] "invalid file type: doc.pdf" = false.
Proof.
  split; [|done]. unfold App.any_keyword. rewrite existsb_exists. split.
  - intros (kw & Hin & (pre & post & ->)%contains_iff).
    exists kw, pre, post. split; [by apply list_elem_of_In|done].
  - intros (kw & pre & post & Hin & ->). exists kw.
    split; [by apply list_elem_of_In|]. apply contains_iff. by exists pre, post.
Qed.

(** ** More on the cleanup helper *)

(** X3. [_cleanup_paths] removes what it is given and nothing else: a
    path that is not in the list is left as it was; a listed path that
    is not empty and holds a file the system lets go (or nothing) is
    absent afterwards, even if the removal of other listed paths fails;
    the clock and the identifier supply are not touched. *)
Theorem cleanup_paths_effect (paths : list (option string)) (w : world)
    (p : string) :
  (Some p ∉ paths ->
   disk (App._cleanup_paths paths w) !! p = disk w !! p) /\
  (Some p ∈ paths -> clearable (disk w) p ->
   disk (App._cleanup_paths paths w) !! p = None) /\
  clock (App._cleanup_paths paths w) = clock w /\
  uuid_count (App._cleanup_paths paths w) = uuid_count w.
Proof.
  split; [apply cleanup_untouched|]. split; [apply cleanup_clears_one|].
  apply cleanup_clock.
Qed.

Lemma cleanup_paths_effect_witness :
  disk (App._cleanup_paths [Some "/tmp/out/a.wav"; None; Some "/tmp/out/b.wav"]
          Fixtures.stale_world) !! "/tmp/out/c.wav"
    = Some (OS.regular_file 9000) /\
  disk (App._cleanup_paths [Some "/tmp/out/a.wav"; None; Some "/tmp/out/b.wav"]
          Fixtures.stale_world) !! "/tmp/out/b.wav" = None.
Proof.
  split.
  - rewrite (proj1 (cleanup_paths_effect _ Fixtures.stale_world "/tmp/out/c.wav"));
      [reflexivity|].
    intros Hin. no_call Hin.
  - apply (cleanup_paths_effect
             [Some "/tmp/out/a.wav"; None; Some "/tmp/out/b.wav"]
             Fixtures.stale_world "/tmp/out/b.wav").
    + apply list_elem_of_further, list_elem_of_further, list_elem_of_here.
    + split; [discriminate|]. vm_compute. done.
Defined.

(** ** What the operations of the processor write and raise *)

Section Frames.
Context `{Externals}.
Variable self : AudioProcessor.t.
Variable w : world.

(** Closes a leaf of the case analysis: the operation returned, or it
    raised before or after the export opened its file. *)
Local Ltac close_frame :=
  first [ done | split; [by left|done] | split; [by right|done] ].

Lemma convert_format_frame (input_path fmt : string) :
  writes_only_result self "converted" fmt w
    (AudioProcessor.convert_format self input_path fmt w).
Proof. unfold writes_only_result. unfold_op. repeat step_op; close_frame. Qed.

Lemma merge_files_frame (file_paths : list string) (fmt : string)
    (crossfade_ms : Z) :
  writes_only_result self "merged" fmt w
    (AudioProcessor.merge_files self file_paths fmt crossfade_ms w).
Proof. unfold writes_only_result. unfold_op. repeat step_op; close_frame. Qed.

Lemma export_with_settings_frame (input_path fmt : string) (settings : pyval) :
  writes_only_result self "export" fmt w
    (AudioProcessor.export_with_settings self input_path fmt settings w).
Proof. unfold writes_only_result. unfold_op. repeat step_op; close_frame. Qed.

Lemma trim_audio_frame (input_path : string) (start_ms end_ms : Z)
    (fmt : string) :
  writes_only_result self "trimmed" fmt w
    (AudioProcessor.trim_audio self input_path start_ms end_ms fmt w).
Proof. unfold writes_only_result. unfold_op. repeat step_op; close_frame. Qed.

Lemma adjust_volume_frame (apply_gain : AudioSegment -> Q -> AudioSegment)
    (input_path : string) (volume_change_db : Q) (fmt : string) :
  writes_only_result self "adjusted" fmt w
    (AudioProcessor.adjust_volume apply_gain self input_path
       volume_change_db fmt w).
Proof. unfold writes_only_result. unfold_op. repeat step_op; close_frame. Qed.

End Frames.

(** X4. Each operation of the processor ([convert_format], [merge_files],
    [export_with_settings], [trim_audio], [adjust_volume]) can touch one
    path only, the one it generates, [<output folder>/<id>_<suffix>.<format>]
    with its own suffix.  When it returns, the format is a supported
    one, that path is returned and the disk gained exactly that file.
    When it raises, the disk is as before or, the format being a
    supported one, holds in addition the file that the failed export had
    opened at that path.  Clock and console stay as they were. *)
Theorem processor_writes_only_result `{Externals}
    (apply_gain : AudioSegment -> Q -> AudioSegment)
    (self : AudioProcessor.t) (w : world) :
  (forall input_path fmt,
     writes_only_result self "converted" fmt w
       (AudioProcessor.convert_format self input_path fmt w)) /\
  (forall file_paths fmt crossfade_ms,
     writes_only_result self "merged" fmt w
       (AudioProcessor.merge_files self file_paths fmt crossfade_ms w)) /\
  (forall input_path fmt settings,
     writes_only_result self "export" fmt w
       (AudioProcessor.export_with_settings self input_path fmt settings w)) /\
  (forall input_path start_ms end_ms fmt,
     writes_only_result self "trimmed" fmt w
       (AudioProcessor.trim_audio self input_path start_ms end_ms fmt w)) /\
  (forall input_path volume_change_db fmt,
     writes_only_result self "adjusted" fmt w
       (AudioProcessor.adjust_volume apply_gain self input_path
          volume_change_db fmt w)).
Proof.
  split; [apply convert_format_frame|]. split; [apply merge_files_frame|].
  split; [apply export_with_settings_frame|].
  split; [apply trim_audio_frame|apply adjust_volume_frame].
Qed.

(** X5. No operation of the processor lets an [OSError] out: whatever it
    raises is of another class (an [OSError] of pydub comes out as an
    [AudioProcessingError]).  [get_audio_info] lets neither an [OSError]
    nor an [AttributeError] out. *)
Theorem processor_never_raises_os_error `{Externals}
    (apply_gain : AudioSegment -> Q -> AudioSegment)
    (self : AudioProcessor.t) (w : world) (e : exn) :
  (forall input_path fmt,
     (AudioProcessor.convert_format self input_path fmt w).1 = Raise e ->
     exn_cls e <> OSError) /\
  (forall file_paths fmt crossfade_ms,
     (AudioProcessor.merge_files self file_paths fmt crossfade_ms w).1 = Raise e ->
     exn_cls e <> OSError) /\
  (forall input_path fmt settings,
     (AudioProcessor.export_with_settings self input_path fmt settings w).1
       = Raise e ->
     exn_cls e <> OSError) /\
  (forall input_path start_ms end_ms fmt,
     (AudioProcessor.trim_audio self input_path start_ms end_ms fmt w).1
       = Raise e ->
     exn_cls e <> OSError) /\
  (forall input_path volume_change_db fmt,
     (AudioProcessor.adjust_volume apply_gain self input_path
        volume_change_db fmt w).1 = Raise e ->
     exn_cls e <> OSError) /\
  (forall input_path,
     AudioProcessor.get_audio_info self input_path = Raise e ->
     exn_cls e <> OSError /\ exn_cls e <> AttributeError).
Proof.
  split; [|split; [|split; [|split; [|split]]]]; intros *.
  1-5: unfold_op; repeat step_op; intros Heq; try discriminate Heq;
    injection Heq as <-; try discriminate; not_os_error.
  unfold AudioProcessor.get_audio_info.
  destruct (from_file input_path) as [audio|e0]; [discriminate|].
  destruct (exn_cls e0) eqn:Hcls; intros [= <-]; simpl; split; congruence.
Qed.

Lemma processor_never_raises_os_error_witness :
  exn_cls (Exn AudioProcessingError
             "Conversion failed: [Errno 13] Permission denied: '/tmp/in.wav'")
    <> OSError.
Proof.
  apply (@processor_never_raises_os_error Scenarios.unreadable
           (fun a _ => a) (AudioProcessor.Build "/tmp/out") Fixtures.world0
           _ ) with (input_path := "/tmp/in.wav") (fmt := "mp3").
  reflexivity.
Defined.

(** X6. When pydub cannot decode the input of an operation whose format
    is supported, the operation raises without drawing an identifier or
    touching the world: an [OSError] comes out as an
    [AudioProcessingError] whose message is the operation's own prefix
    followed by the original message, any other exception comes out
    unchanged.  [merge_files] does so for its first file.
    [get_audio_info] wraps an [AttributeError] as well. *)
Theorem decode_failure_routing `{Externals}
    (apply_gain : AudioSegment -> Q -> AudioSegment)
    (self : AudioProcessor.t) (w : world) (input_path fmt : string) (e : exn) :
  str_in (lower fmt) AudioProcessor.supported_formats = true ->
  from_file input_path = Raise e ->
  let routed prefix :=
    if is_os_error e then Exn AudioProcessingError (prefix +:+ exn_msg e)
    else e in
  AudioProcessor.convert_format self input_path fmt w
    = (Raise (routed "Conversion failed: "), w) /\
  (forall rest crossfade_ms,
     rest <> [] ->
     AudioProcessor.merge_files self (input_path :: rest) fmt crossfade_ms w
       = (Raise (routed "Merge failed: "), w)) /\
  (forall settings,
     AudioProcessor.export_with_settings self input_path fmt settings w
       = (Raise (routed "Export with settings failed: "), w)) /\
  (forall start_ms end_ms,
     AudioProcessor.trim_audio self input_path start_ms end_ms fmt w
       = (Raise (routed "Trim failed: "), w)) /\
  (forall volume_change_db,
     AudioProcessor.adjust_volume apply_gain self input_path
       volume_change_db fmt w
       = (Raise (routed "Volume adjustment failed: "), w)) /\
  AudioProcessor.get_audio_info self input_path =
    Raise (match exn_cls e with
           | OSError | AttributeError =>
               Exn AudioProcessingError
                 ("Failed to get audio info: " +:+ exn_msg e)
           | _ => e
           end).
Proof.
  intros Hfmt Hfile routed. subst routed.
  split; [|split; [|split; [|split; [|split]]]]; intros *.
  - unfold_op. rewrite Hfmt, Hfile. simpl. by destruct (is_os_error e).
  - intros Hrest. unfold_op. destruct rest as [|p rest]; [done|].
    rewrite Hfmt. simpl. rewrite Hfile. simpl. by destruct (is_os_error e).
  - unfold_op. rewrite Hfmt, Hfile. simpl. by destruct (is_os_error e).
  - unfold_op. rewrite Hfmt, Hfile. simpl. by destruct (is_os_error e).
  - unfold_op. rewrite Hfmt, Hfile. simpl. by destruct (is_os_error e).
  - unfold AudioProcessor.get_audio_info. rewrite Hfile.
    by destruct (exn_cls e).
Qed.

Lemma decode_failure_routing_witness :
  AudioProcessor.convert_format (H := Scenarios.unreadable)
    (AudioProcessor.Build "/tmp/out") "/tmp/in.wav" "mp3" Fixtures.world0
  = (Raise (Exn AudioProcessingError
              "Conversion failed: [Errno 13] Permission denied: '/tmp/in.wav'"),
     Fixtures.world0).
Proof.
  apply (@decode_failure_routing Scenarios.unreadable (fun a _ => a)
           (AudioProcessor.Build "/tmp/out") Fixtures.world0 "/tmp/in.wav" "mp3"
           (OS.os_error "[Errno 13] Permission denied" "/tmp/in.wav")
           eq_refl eq_refl).
Defined.

(** X7. Without pydub (the stand-in class of the module is in use),
    every operation asked for a supported format raises
    [NotImplementedError("pydub is not available")], unwrapped, and
    leaves the world as it was; so does [get_audio_info]. *)
Theorem fallback_not_implemented (uuid : nat -> string)
    (secure : string -> string) (self : AudioProcessor.t) (w : world)
    (input_path fmt : string) :
  str_in (lower fmt) AudioProcessor.supported_formats = true ->
  let unavailable := Exn NotImplementedError "pydub is not available" in
  AudioProcessor.convert_format (H := Fallback.externals uuid secure)
    self input_path fmt w = (Raise unavailable, w) /\
  (forall rest crossfade_ms,
     rest <> [] ->
     AudioProcessor.merge_files (H := Fallback.externals uuid secure)
       self (input_path :: rest) fmt crossfade_ms w = (Raise unavailable, w)) /\
  (forall settings,
     AudioProcessor.export_with_settings (H := Fallback.externals uuid secure)
       self input_path fmt settings w = (Raise unavailable, w)) /\
  (forall start_ms end_ms,
     AudioProcessor.trim_audio (H := Fallback.externals uuid secure)
       self input_path start_ms end_ms fmt w = (Raise unavailable, w)) /\
  AudioProcessor.get_audio_info (H := Fallback.externals uuid secure)
    self input_path = Raise unavailable.
Proof.
  intros Hfmt unavailable.
  split; [|split; [|split; [|split]]]; intros *.
  - unfold_op. by rewrite Hfmt.
  - intros Hrest. unfold_op. destruct rest as [|p rest]; [done|].
    by rewrite Hfmt.
  - unfold_op. by rewrite Hfmt.
  - unfold_op. by rewrite Hfmt.
  - done.
Qed.

Lemma fallback_not_implemented_witness :
  AudioProcessor.get_audio_info (H := Scenarios.fallback)
    (AudioProcessor.Build "/tmp/out") "/tmp/in.wav"
  = Raise (Exn NotImplementedError "pydub is not available").
Proof.
  apply (fallback_not_implemented (fun n => "id" +:+ pretty n) (fun s => s)
           (AudioProcessor.Build "/tmp/out") Fixtures.world0 "/tmp/in.wav" "wav"
           eq_refl).
Defined.

(** ** Merging without crossfade *)

Section NoCrossfade.
Variable H : Externals.
Variable f : @AudioSegment H -> @AudioSegment H -> Z -> result (@AudioSegment H).




End NoCrossfade.



(** ** Boundary check and processor check *)

(** X9. A file name that [allowed_file] accepts has an extension that
    the processor accepts as a format, in whatever letter case it is
    written; the converse fails: the processor supports [m4a], which the
    boundary refuses. *)
Theorem allowed_extension_is_supported (filename : string) :
  (App.allowed_file filename = true ->
   exists stem ext,
     filename = stem +:+ "." +:+ ext /\
     AudioProcessor._validate_format ext = Ok tt) /\
  AudioProcessor._validate_format "m4a" = Ok tt /\
  App.allowed_file "song.m4a" = false.
Proof.
  split; [|done]. unfold App.allowed_file.
  intros [Hdot Hin]%andb_true_iff.
  destruct (has_char_split _ _ Hdot) as (stem & ext & -> & Hext).
  exists stem, ext. split; [done|].
  rewrite (rsplit1_at_last _ _ _ Hext) in Hin. cbn [nth] in Hin.
  unfold AudioProcessor._validate_format.
  replace (str_in (lower ext) AudioProcessor.supported_formats) with true;
    [done|].
  symmetry. apply str_in_elem_of. apply str_in_elem_of in Hin.
  unfold App.ALLOWED_EXTENSIONS in Hin. unfold AudioProcessor.supported_formats.
  repeat (apply elem_of_cons in Hin as [Heq|Hin];
          [rewrite Heq;
           repeat first [apply list_elem_of_here|apply list_elem_of_further]|]).
  by apply elem_of_nil in Hin.
Qed.

Lemma allowed_extension_is_supported_witness :
  exists stem ext,
    "track.WAV" = stem +:+ "." +:+ ext /\
    AudioProcessor._validate_format ext = Ok tt.
Proof.
  apply (allowed_extension_is_supported "track.WAV"). reflexivity.
Defined.

(** ** The request layer as a whole *)

(** X10. On [/convert], [/merge] and [/export] the status is 200, 400,
    413 or 500.  It is 200 exactly when the route's own operation
    returned and no exception was caught after it (opening the returned
    file for streaming can still fail).  On [/metadata] the status is
    200, 400 or 500, and it is 200 exactly when [get_audio_info]
    returned. *)
Theorem status_200_iff_processor_returned `{Externals}
    (processor : Processor) (req : App.request) (w : world) :
  (forall ep,
     let out := handle ep processor req w in
     (App.status out.1.1 = 200 \/ App.status out.1.1 = 400 \/
      App.status out.1.1 = 413 \/ App.status out.1.1 = 500) /\
     (App.status out.1.1 = 200 <->
      (exists args v,
         App.Invoked (op_of ep) args (App.Returned v) ∈ out.2) /\
      (forall e, App.Caught e ∉ out.2))) /\
  let out := App.get_metadata processor req w in
  (App.status out.1.1 = 200 \/ App.status out.1.1 = 400 \/
   App.status out.1.1 = 500) /\
  (App.status out.1.1 = 200 <->
   exists args v, App.Invoked App.OpInfo args (App.Returned v) ∈ out.2).
Proof.
  split.
  - intros ep. cbv zeta.
    destruct (handle_ending processor ep req w)
      as [resp Hst|msg saved w' _ _ _|saved exc w' _ _ _
         |saved args w1 w2 exc _ _ _ _
         |saved args w1 w2 out exc extra _ _ _ _ _
         |saved args w1 w2 out name extra _ _ _ _ _ _ _ _]; cbn [fst snd].
    + split; [destruct Hst as [[msg ->]| ->]; simpl; auto|].
      split; [destruct Hst as [[msg ->]| ->]; discriminate|].
      by intros [(args & v & Hin%elem_of_nil) _].
    + simpl. split; [auto|]. split; [discriminate|].
      intros [(args & v & Hin) _]. by apply saved_only in Hin.
    + simpl. split; [destruct (App.any_keyword _ _); auto|].
      split; [destruct (App.any_keyword _ _); discriminate|].
      intros [_ Hno]. destruct (Hno exc).
      apply elem_of_app. right. apply list_elem_of_here.
    + simpl. split; [destruct (App.any_keyword _ _); auto|].
      split; [destruct (App.any_keyword _ _); discriminate|].
      intros [_ Hno]. destruct (Hno exc).
      apply elem_of_app. right. apply list_elem_of_further, list_elem_of_here.
    + simpl. split; [destruct (App.any_keyword _ _); auto|].
      split; [destruct (App.any_keyword _ _); discriminate|].
      intros [_ Hno]. destruct (Hno exc).
      apply elem_of_app. right. apply list_elem_of_further, list_elem_of_here.
    + simpl. split; [auto|]. split; [|done]. intros _. split.
      * exists args, (PStr out). apply elem_of_app. right.
        apply list_elem_of_here.
      * intros e [Hin|Hin]%elem_of_app;
          [by apply caught_not_saved in Hin|no_call Hin].
  - cbv zeta. unfold App.get_metadata.
    destruct (App.parse_error req) as [exc|]; simpl;
      [split; [auto|]; split; [discriminate|];
       intros (args & v & Hin); no_call Hin|].
    destruct (App.files_get _ _) as [file|]; simpl;
      [|split; [auto|]; split; [discriminate|];
        by intros (args & v & Hin%elem_of_nil)].
    destruct (negb (App.allowed_file _)); simpl;
      [split; [auto|]; split; [discriminate|];
       by intros (args & v & Hin%elem_of_nil)|].
    destruct (App.save _ _) as [[[]|exc] w1]; simpl.
    + destruct (call_get_audio_info _ _ _) as [md|exc]; simpl.
      * split; [auto|]. split; [|done]. intros _.
        eexists _, _. apply list_elem_of_further, list_elem_of_here.
      * split; [auto|]. split; [discriminate|].
        intros (args & v & Hin). no_call Hin.
    + split; [auto|]. split; [discriminate|].
      intros (args & v & Hin). no_call Hin.
Qed.

(** The processor returned, yet the answer is 500: a stand-in returns
    [/tmp/exported.flac], which is on no disk, and [send_file] raises. *)
Lemma returned_path_not_streamed :
  Fixtures.export_flac_stub.1.1 =
    App.error_response 500
      "[Errno 2] No such file or directory: '/tmp/exported.flac'" /\
  Fixtures.export_flac_stub.2 =
    [App.Saved "uploads/id0_source.wav";
     App.Invoked App.OpExport
       [PStr "uploads/id0_source.wav"; PStr "flac"; PStr "1411k"; PInt 96000]
       (App.Returned (PStr "/tmp/exported.flac"));
     App.Caught
       (OS.os_error "[Errno 2] No such file or directory"
          "/tmp/exported.flac")].
Proof. vm_compute. done. Qed.

(** X11. A request for which no upload was saved (a check refused it,
    its body was too long, or the system refused the first upload a
    place on the disk) leaves the disk as it was, does not call the
    processor and is not answered 200. *)
Theorem nothing_saved_nothing_done `{Externals} (processor : Processor)
    (ep : endpoint) (req : App.request) (w : world) :
  (forall p, App.Saved p ∉ (handle ep processor req w).2) ->
  disk (handle ep processor req w).1.2 = disk w /\
  ~ calls_processor (handle ep processor req w).2 /\
  App.status (handle ep processor req w).1.1 <> 200.
Proof.
  unfold calls_processor.
  destruct (handle_ending processor ep req w)
    as [resp Hst|msg saved w' _ _ Hnone|saved exc w' _ _ Hnone
       |saved args w1 w2 exc Hne _ _ _
       |saved args w1 w2 out exc extra Hne _ _ _ _
       |saved args w1 w2 out name extra Hne _ _ _ _ _ _ _]; cbn [fst snd];
    intros Hno.
  - split; [done|]. split; [by intros (o & args & r & ?%elem_of_nil)|].
    destruct Hst as [[msg ->]| ->]; discriminate.
  - destruct saved as [|p saved];
      [|exfalso; apply (Hno p); apply list_elem_of_here].
    split; [by apply Hnone|].
    split; [by intros (o & args & r & ?%elem_of_nil)|]. discriminate.
  - destruct saved as [|p saved];
      [|exfalso; apply (Hno p); apply list_elem_of_here].
    split; [by apply Hnone|].
    split; [intros (o & args & r & Hin); no_call Hin|].
    simpl. destruct (App.any_keyword _ _); discriminate.
  - destruct saved as [|p saved]; [done|].
    exfalso. apply (Hno p). apply list_elem_of_here.
  - destruct saved as [|p saved]; [done|].
    exfalso. apply (Hno p). apply list_elem_of_here.
  - destruct saved as [|p saved]; [done|].
    exfalso. apply (Hno p). apply list_elem_of_here.
Qed.

Lemma nothing_saved_nothing_done_witness :
  disk Fixtures.merge_pdf_no_uploads.1.2 = disk Fixtures.no_uploads_world /\
  ~ calls_processor Fixtures.merge_pdf_no_uploads.2 /\
  App.status Fixtures.merge_pdf_no_uploads.1.1 <> 200.
Proof.
  apply (@nothing_saved_nothing_done Fixtures.ideal Fixtures.real Merge
           (Fixtures.merge_request ["track1.wav"; "doc.pdf"]
              [("output_format", "ogg")]) Fixtures.no_uploads_world).
  intros p Hin. vm_compute in Hin. no_call Hin.
Defined.

Lemma call_keeps_removable (processor : Processor) (ep : endpoint)
    (args : list pyval) (w : world) (p : string) :
  keeps_removable processor ->
  clearable (disk w) p -> clearable (disk (call ep processor args w).2) p.
Proof.
  intros Hkeep Hp. destruct (Hkeep args w p Hp) as (Hc & Hm & He).
  by destruct ep.
Qed.

(** X12. What becomes of the uploads a route saved, as long as the
    processor does not turn a removable file into one that cannot be
    removed.  When the answer is not 200, none of them is on the disk
    when the handler returns.  When it is 200 each upload is among the
    paths of the function the handler registered with [call_on_close],
    and it is that function, if it is ever called, that removes it. *)
Theorem uploads_removed_or_registered `{Externals} (processor : Processor)
    (ep : endpoint) (req : App.request) (w : world) :
  keeps_removable processor ->
  forall p,
    App.Saved p ∈ (handle ep processor req w).2 ->
    (App.status (handle ep processor req w).1.1 <> 200 ->
     disk (handle ep processor req w).1.2 !! p = None) /\
    (App.status (handle ep processor req w).1.1 = 200 ->
     Some p ∈ App.on_close (handle ep processor req w).1.1 /\
     disk (cleaned_up (handle ep processor req w)) !! p = None).
Proof.
  intros Hkeep p. unfold cleaned_up, App.cleanup.
  destruct (handle_ending processor ep req w)
    as [resp _|msg saved w' _ Hgone _|saved exc w' _ Hgone _
       |saved args w1 w2 exc _ _ Hclear Hcall
       |saved args w1 w2 out exc extra _ _ Hclear Hcall _
       |saved args w1 w2 out name extra _ _ Hclear _ Hcall _ _ _];
    cbn [fst snd]; intros Hin.
  - by apply elem_of_nil in Hin.
  - split; [|discriminate]. intros _. by apply Hgone, saved_elem_of.
  - split; [|simpl; destruct (App.any_keyword _ _); discriminate].
    intros _. apply Hgone.
    eapply saved_before_call; [|exact Hin]. intros q Hq. no_call Hq.
  - assert (p ∈ saved) as Hp.
    { eapply saved_before_call; [|exact Hin]. intros q Hq. no_call Hq. }
    split; [|simpl; destruct (App.any_keyword _ _); discriminate].
    intros _. apply cleanup_clears_one; [by apply some_elem_of|].
    pose proof (call_keeps_removable processor ep args w1 p Hkeep
                  (Hclear p Hp)) as Hc.
    by rewrite Hcall in Hc.
  - assert (p ∈ saved) as Hp.
    { eapply saved_before_call; [|exact Hin]. intros q Hq. no_call Hq. }
    split; [|simpl; destruct (App.any_keyword _ _); discriminate].
    intros _. apply cleanup_clears_one.
    + apply elem_of_app. left. by apply some_elem_of.
    + pose proof (call_keeps_removable processor ep args w1 p Hkeep
                    (Hclear p Hp)) as Hc.
      by rewrite Hcall in Hc.
  - assert (p ∈ saved) as Hp.
    { eapply saved_before_call; [|exact Hin]. intros q Hq. no_call Hq. }
    split; [done|]. intros _. simpl.
    assert (Some p ∈ map Some saved ++ extra) as Hreg
      by (apply elem_of_app; left; by apply some_elem_of).
    split; [exact Hreg|].
    apply cleanup_clears_one; [exact Hreg|].
    pose proof (call_keeps_removable processor ep args w1 p Hkeep
                  (Hclear p Hp)) as Hc.
    by rewrite Hcall in Hc.
Qed.

(** ** The request layer on top of the processor of audio_processor.py *)

Lemma path_join_nonempty (a b : string) : b <> "" -> OS.path_join a b <> "".
Proof.
  intros Hb. unfold OS.path_join. destruct (startswith "/" b); [done|].
  destruct (OS.dir_prefix a); simpl; [done|discriminate].
Qed.

Lemma generated_name_nonempty (id rest : string) : id +:+ "_" +:+ rest <> "".
Proof. destruct id; discriminate. Qed.

Section RealProcessor.
Context `{Externals}.
Variable self : AudioProcessor.t.

(** However the request layer calls the object, with whatever arguments,
    the call behaves as one of the framed operations (a call that Python
    refuses raises [TypeError] and does nothing). *)
Lemma as_processor_frame (ep : endpoint) (args : list pyval) (w : world) :
  exists suffix fmt,
    writes_only_result self suffix fmt w
      (call ep (AudioProcessor.as_processor self) args w).
Proof.
  assert (forall e, writes_only_result self "" "" w (AudioProcessor.raise e w))
    as Hraise by (intros e; split; [by left|done]).
  destruct ep;
    cbn [call call_convert_format call_merge_files call_export_with_settings
         AudioProcessor.as_processor];
    repeat (match goal with
            | |- context [match ?x with _ => _ end] => is_var x; destruct x
            | |- context [AudioProcessor.strs ?l] =>
                destruct (AudioProcessor.strs l)
            end);
    first [ by (exists "", ""; apply Hraise)
          | eexists _, _;
            first [ apply convert_format_frame | apply merge_files_frame
                  | apply export_with_settings_frame ] ].
Qed.

Lemma call_result (ep : endpoint) (args : list pyval) (w w' : world)
    (path : string) :
  call ep (AudioProcessor.as_processor self) args w = (Ok path, w') ->
  path <> "" /\
  disk w' = <[path := OS.regular_file (clock w)]> (disk w).
Proof.
  intros Hcall.
  destruct (as_processor_frame ep args w) as (suffix & fmt & Hres & _).
  rewrite Hcall in Hres. simpl in Hres. destruct Hres as (_ & -> & Hdisk).
  split; [|exact Hdisk].
  apply path_join_nonempty, generated_name_nonempty.
Qed.

Lemma as_processor_keeps_removable :
  keeps_removable (AudioProcessor.as_processor self).
Proof.
  assert (forall ep args w p,
            clearable (disk w) p ->
            clearable
              (disk (call ep (AudioProcessor.as_processor self) args w).2) p)
    as Hall.
  { intros ep args w p Hp.
    destruct (as_processor_frame ep args w) as (suffix & fmt & Hres & _).
    destruct (call ep _ args w) as [[path|e] w']; simpl in *.
    - destruct Hres as (_ & _ & ->). by apply clearable_insert.
    - destruct Hres as [-> |[_ ->]]; [done|by apply clearable_insert]. }
  intros args w p Hp.
  split; [apply (Hall Convert)|split; [apply (Hall Merge)|apply (Hall Export)]];
    exact Hp.
Qed.

End RealProcessor.

Lemma uploads_removed_or_registered_witness :
  Some "uploads/id0_input_test.wav" ∈ App.on_close Scenarios.convert_mp3.1.1 /\
  disk (cleaned_up Scenarios.convert_mp3) !! "uploads/id0_input_test.wav"
    = None.
Proof.
  apply (@uploads_removed_or_registered Fixtures.ideal
           (AudioProcessor.as_processor (AudioProcessor.Build "/tmp/out"))
           Convert (Fixtures.convert_request "test.wav" "MP3") Fixtures.world0
           (as_processor_keeps_removable (AudioProcessor.Build "/tmp/out"))
           "uploads/id0_input_test.wav").
  - apply list_elem_of_here.
  - reflexivity.
Defined.

(** X13. With the processor of audio_processor.py behind the routes:
    when a route streams a file back, that file and every upload the
    route saved are ordinary files on the disk when the handler returns;
    the handler has handed all of them to the function it registers with
    [call_on_close], and if that function is called, none of the paths
    it was handed is left on the disk. *)
Theorem served_file_registered_for_cleanup `{Externals}
    (self : AudioProcessor.t) (ep : endpoint) (req : App.request) (w : world)
    (path name : string) :
  let out := handle ep (AudioProcessor.as_processor self) req w in
  App.payload out.1.1 = App.Attachment path name ->
  (exists t, disk out.1.2 !! path = Some (OS.regular_file t)) /\
  (forall p, App.Saved p ∈ out.2 ->
             exists t, disk out.1.2 !! p = Some (OS.regular_file t)) /\
  Some path ∈ App.on_close out.1.1 /\
  (forall p, App.Saved p ∈ out.2 -> Some p ∈ App.on_close out.1.1) /\
  (forall q, Some q ∈ App.on_close out.1.1 ->
             disk (cleaned_up out) !! q = None).
Proof.
  cbv zeta. unfold cleaned_up, App.cleanup.
  destruct (handle_ending (AudioProcessor.as_processor self) ep req w)
    as [resp [[msg ->]| ->]|msg saved w' _ _ _|saved exc w' _ _ _
       |saved args w1 w2 exc _ _ _ _
       |saved args w1 w2 out exc extra _ _ _ _ _
       |saved args w1 w2 out name' extra _ _ Hclear Hpresent Hcall _ Hextra Hout];
    cbn [fst snd]; try (simpl; discriminate).
  simpl. intros [= -> ->].
    destruct (call_result self ep args w1 w2 path Hcall) as [Hne Hdisk].
    assert (clearable (disk w2) path) as Hpath.
    { split; [done|]. by rewrite Hdisk, lookup_insert_eq. }
    assert (forall p, App.Saved p ∈
                        map App.Saved saved ++
                        [App.Invoked (op_of ep) args (App.Returned (PStr path))] ->
                      p ∈ saved) as Hsaved.
    { intros p Hin. eapply saved_before_call; [|exact Hin].
      intros q Hq. no_call Hq. }
    split; [exists (clock w1); rewrite Hdisk; apply lookup_insert_eq|].
    split.
    { intros p Hin%Hsaved. rewrite Hdisk.
      destruct (decide (path = p)) as [->|Hother].
      - eexists. apply lookup_insert_eq.
      - rewrite lookup_insert_ne by done. by apply Hpresent. }
    split; [apply elem_of_app; right; by apply Hout|].
    split.
    + intros p Hin%Hsaved. apply elem_of_app. left. by apply some_elem_of.
    + intros q Hq. apply cleanup_clears_one; [exact Hq|].
      apply elem_of_app in Hq as [Hq|Hq].
      * apply list_elem_of_fmap in Hq as (q' & [= <-] & Hq').
        pose proof (call_keeps_removable _ ep args w1 q
                      (as_processor_keeps_removable self) (Hclear q Hq'))
          as Hc.
        by rewrite Hcall in Hc.
      * by rewrite (Hextra q Hq).
Qed.

Lemma served_file_registered_for_cleanup_witness :
  (exists t, disk Scenarios.convert_mp3.1.2 !! "/tmp/out/id1_converted.mp3"
             = Some (OS.regular_file t)) /\
  (forall p, App.Saved p ∈ Scenarios.convert_mp3.2 ->
             exists t, disk Scenarios.convert_mp3.1.2 !! p
                       = Some (OS.regular_file t)) /\
  Some "/tmp/out/id1_converted.mp3" ∈ App.on_close Scenarios.convert_mp3.1.1 /\
  (forall p, App.Saved p ∈ Scenarios.convert_mp3.2 ->
             Some p ∈ App.on_close Scenarios.convert_mp3.1.1) /\
  (forall q, Some q ∈ App.on_close Scenarios.convert_mp3.1.1 ->
             disk (cleaned_up Scenarios.convert_mp3) !! q = None).
Proof.
  apply (@served_file_registered_for_cleanup Fixtures.ideal
           (AudioProcessor.Build "/tmp/out") Convert
           (Fixtures.convert_request "test.wav" "MP3") Fixtures.world0
           "/tmp/out/id1_converted.mp3" "converted.mp3" eq_refl).
Defined.

(** ** POST /export: the sample rate *)

(** X14. A [/export] request within the size limit that passes the
    checks and whose upload the system lets be written, but whose
    [sample_rate] is not something [int()] accepts, is answered 400
    "Sample rate must be an integer": the upload was saved and is removed
    again, the [ValueError] of [int()] reaches the [except] branch, and
    the processor is not called. *)
Theorem export_rejects_non_integer_rate `{Externals} (processor : Processor)
    (req : App.request) (w : world) (file : App.upload)
    (fmt bitrate sample_rate : string) :
  App.content_length req <= App.MAX_FILE_SIZE ->
  App.files_get "file" (App.files req) = Some file ->
  App.allowed_file (App.filename file) = true ->
  App.form_get "format" (App.form req) = Some fmt -> fmt <> "" ->
  App.form_get "bitrate" (App.form req) = Some bitrate -> bitrate <> "" ->
  App.form_get "sample_rate" (App.form req) = Some sample_rate ->
  sample_rate <> "" ->
  int_of_str sample_rate = None ->
  let input_path :=
    OS.path_join App.UPLOAD_FOLDER
      (secure_filename
         (uuid4_hex (uuid_count w) +:+ "_" +:+ App.filename file)) in
  writable (disk w) input_path ->
  (App.export_audio processor req w).1.1
    = App.error_response 400 "Sample rate must be an integer" /\
  (App.export_audio processor req w).2
    = [App.Saved input_path;
       App.Caught (Exn ValueError "Sample rate must be an integer")] /\
  ~ calls_processor (App.export_audio processor req w).2 /\
  disk (App.export_audio processor req w).1.2 !! input_path = None.
Proof.
  intros Hsize Hfile Hok Hfmt Hfmt' Hbit Hbit' Hrate Hrate' Hint input_path
    Hwritable.
  unfold App.export_audio. rewrite (parse_ok req Hsize).
  rewrite Hfile, Hfmt, Hbit, Hrate. unfold App.missing.
  rewrite (nonempty_eqb _ Hfmt'), (nonempty_eqb _ Hbit'),
    (nonempty_eqb _ Hrate'), Hok.
  change (default "" (Some sample_rate)) with sample_rate.
  cbv beta iota zeta delta [uuid4 orb negb App.save]. cbn [disk].
  fold input_path. unfold writable in Hwritable. rewrite Hwritable, Hint.
  unfold App.export_failed.
  match goal with
  | |- context [App.any_keyword ?k ?m] => change (App.any_keyword k m) with true
  end.
  cbn [fst snd].
  split; [reflexivity|]. split; [reflexivity|]. split.
  - intros (o & args & r & Hin). no_call Hin.
  - apply cleanup_clears_one; [apply list_elem_of_here|].
    by apply written_clearable.
Qed.

Lemma export_rejects_non_integer_rate_witness :
  Scenarios.export_bad_rate.1.1
    = App.error_response 400 "Sample rate must be an integer" /\
  Scenarios.export_bad_rate.2
    = [App.Saved "uploads/id0_source.wav";
       App.Caught (Exn ValueError "Sample rate must be an integer")] /\
  ~ calls_processor Scenarios.export_bad_rate.2 /\
  disk Scenarios.export_bad_rate.1.2 !! "uploads/id0_source.wav" = None.
Proof.
  assert (Fixtures.small_body <= App.MAX_FILE_SIZE) as Hsize
    by (vm_compute; discriminate).
  apply (@export_rejects_non_integer_rate Fixtures.ideal Fixtures.real
           (Fixtures.export_request "source.wav" "flac" "1411k"
              "invalid_number")
           Fixtures.world0 (App.Upload "source.wav") "flac" "1411k"
           "invalid_number" Hsize eq_refl eq_refl eq_refl ltac:(discriminate)
           eq_refl ltac:(discriminate) eq_refl ltac:(discriminate) eq_refl).
  reflexivity.
Defined.

(** ** POST /merge: what the processor is handed *)

(** X15. Whenever [/merge] calls the processor, the request held at
    least two uploads, all of allowed extension, and a non-empty
    [output_format]; the call is to the merge operation, with the paths of
    all the saved uploads in upload order, followed by the format in
    lower case; and the trace is those saves, the call, and then the
    exception if the call raised, nothing if it returned and the answer
    is 200, and the exception of [send_file] if it returned a path that
    could not be opened for streaming. *)
Theorem merge_passes_saved_uploads `{Externals} (processor : Processor)
    (req : App.request) (w : world) (o : App.op) (args : list pyval)
    (r : App.outcome) :
  App.Invoked o args r ∈ (App.merge_audio processor req w).2 ->
  let uploads := App.files_getlist "files[]" (App.files req) in
  let paths := upload_paths (uuid_count w) uploads in
  exists fmt tail,
    App.form_get "output_format" (App.form req) = Some fmt /\ fmt <> "" /\
    (2 <= length uploads)%nat /\
    Forall (fun f => App.allowed_file (App.filename f) = true) uploads /\
    o = App.OpMerge /\
    args = [PList (map PStr paths); PStr (lower fmt)] /\
    (App.merge_audio processor req w).2
      = map App.Saved paths ++ [App.Invoked o args r] ++ tail /\
    match r with
    | App.Raised e => tail = [App.Caught e]
    | App.Returned _ =>
        (tail = [] /\ App.status (App.merge_audio processor req w).1.1 = 200) \/
        (exists e,
           tail = [App.Caught e] /\
           App.status (App.merge_audio processor req w).1.1 <> 200)
    end.
Proof.
  cbv zeta. unfold App.merge_audio.
  destruct (App.parse_error req) as [exc|];
    [unfold App.merge_failed; cbn [snd]; intros Hin; no_call Hin|].
  destruct (_ <? 2)%nat eqn:Hmany; [by intros ?%elem_of_nil|].
  apply Nat.ltb_ge in Hmany.
  destruct (App.form_get _ _) as [fmt|]; [|by intros ?%elem_of_nil].
  unfold App.missing. destruct (String.eqb fmt "") eqn:Hfmt;
    [by intros ?%elem_of_nil|].
  apply String.eqb_neq in Hfmt.
  destruct (merge_save_loop_shape
              (App.files_getlist "files[]" (App.files req)) [] w [])
    as (new & Htr & _ & Hres); [by intros p ?%elem_of_nil|].
  destruct (App.merge_save_loop _ _ _ _) as [[[[[resp|]|exc] fps] w1] tr];
    simpl in Htr, Hres; subst tr.
  - intros Hin. by apply saved_only in Hin.
  - destruct Hres as (-> & -> & Hall & _).
    change (default "" (Some fmt)) with fmt. cbv beta iota zeta.
    destruct (call_merge_files _ _ _) as [[out|exc] w2]; cbv beta iota zeta.
    + unfold App.send_file, App.merge_failed.
      destruct (OS.read_error out (disk w2)) as [e|]; cbn [fst snd];
        intros Hin;
        repeat (apply elem_of_app in Hin as [Hin|Hin];
                [try by apply saved_only in Hin|]);
        try (apply list_elem_of_singleton in Hin; try discriminate Hin);
        injection Hin as -> -> ->; exists fmt.
      * exists [App.Caught e]. rewrite <- app_assoc.
        do 7 (split; [done|]). right. exists e. split; [done|].
        unfold App.error_response. cbn [App.status].
        destruct (App.any_keyword _ _); discriminate.
      * exists []. rewrite app_nil_r.
        do 7 (split; [done|]). by left.
    + unfold App.merge_failed. cbn [fst snd]. intros Hin.
      repeat (apply elem_of_app in Hin as [Hin|Hin];
              [try by apply saved_only in Hin|]);
        try (apply list_elem_of_singleton in Hin; try discriminate Hin).
      injection Hin as -> -> ->. exists fmt, [App.Caught exc].
      rewrite <- app_assoc. by do 7 (split; [done|]).
  - unfold App.merge_failed. cbn [snd]. intros [Hin|Hin]%elem_of_app.
    + by apply saved_only in Hin.
    + no_call Hin.
Qed.

Lemma merge_passes_saved_uploads_witness :
  exists fmt tail,
    Some "OGG" = Some fmt /\ fmt <> "" /\ (2 <= 2)%nat /\
    Forall (fun f => App.allowed_file (App.filename f) = true)
      [App.Upload "track1.wav"; App.Upload "track2.wav"] /\
    App.OpMerge = App.OpMerge /\
    [PList [PStr "uploads/id0_track1.wav"; PStr "uploads/id1_track2.wav"];
     PStr "ogg"]
    = [PList (map PStr (@upload_paths Fixtures.ideal 0
                          [App.Upload "track1.wav"; App.Upload "track2.wav"]));
       PStr (lower fmt)] /\
    (App.merge_audio (H := Fixtures.ideal) Fixtures.real
       (Fixtures.merge_request ["track1.wav"; "track2.wav"]
          [("output_format", "OGG")]) Fixtures.world0).2
    = map App.Saved (@upload_paths Fixtures.ideal 0
                       [App.Upload "track1.wav"; App.Upload "track2.wav"]) ++
      [App.Invoked App.OpMerge
         [PList [PStr "uploads/id0_track1.wav"; PStr "uploads/id1_track2.wav"];
          PStr "ogg"]
         (App.Returned (PStr "/tmp/out/id2_merged.ogg"))] ++ tail /\
    ((tail = [] /\
      App.status
        (App.merge_audio (H := Fixtures.ideal) Fixtures.real
           (Fixtures.merge_request ["track1.wav"; "track2.wav"]
              [("output_format", "OGG")]) Fixtures.world0).1.1 = 200) \/
     (exists e,
        tail = [App.Caught e] /\
        App.status
          (App.merge_audio (H := Fixtures.ideal) Fixtures.real
             (Fixtures.merge_request ["track1.wav"; "track2.wav"]
                [("output_format", "OGG")]) Fixtures.world0).1.1 <> 200)).
Proof.
  apply (@merge_passes_saved_uploads Fixtures.ideal Fixtures.real
           (Fixtures.merge_request ["track1.wav"; "track2.wav"]
              [("output_format", "OGG")]) Fixtures.world0
           App.OpMerge
           [PList [PStr "uploads/id0_track1.wav"; PStr "uploads/id1_track2.wav"];
            PStr "ogg"]
           (App.Returned (PStr "/tmp/out/id2_merged.ogg"))).
  apply list_elem_of_further, list_elem_of_further, list_elem_of_here.
Defined.

(** ** The trace of a route *)



(** ** cleanup_old_files: what a sweep can and cannot do *)

(** Whatever names it is given and wherever it stops, the loop only
    deletes: a path either holds what it held, or held an ordinary file
    of the folder older than the cutoff that the system let go and is
    now absent; the counter grew by the number of files gone. *)
Lemma sweep_only_deletes (folder : string) (cutoff : Z) (names : list string) :
  forall (d : gmap string OS.node) (c : Z),
    (forall p,
       (AudioProcessor.sweep folder cutoff names d c).2 !! p = d !! p \/
       (AudioProcessor.sweep folder cutoff names d c).2 !! p = None /\
       exists n node,
         n ∈ names /\ p = OS.path_join folder n /\
         d !! p = Some node /\ OS.is_dir node = false /\
         OS.mtime node < cutoff /\ OS.denied node = false) /\
    (AudioProcessor.sweep folder cutoff names d c).1.2 - c
      = Z.of_nat (size d) - Z.of_nat (size (AudioProcessor.sweep folder cutoff names d c).2).
Proof.
  induction names as [|a rest IH]; intros d c; simpl.
  - split; [by left|lia].
  - assert (forall d' c',
              ((forall p,
                  (AudioProcessor.sweep folder cutoff rest d' c').2 !! p = d' !! p \/
                  (AudioProcessor.sweep folder cutoff rest d' c').2 !! p = None /\
                  exists n node,
                    n ∈ a :: rest /\ p = OS.path_join folder n /\
                    d' !! p = Some node /\ OS.is_dir node = false /\
                    OS.mtime node < cutoff /\ OS.denied node = false) /\
               (AudioProcessor.sweep folder cutoff rest d' c').1.2 - c'
                 = Z.of_nat (size d') -
                   Z.of_nat (size (AudioProcessor.sweep folder cutoff rest d' c').2)))
      as IH'.
    { intros d' c'. destruct (IH d' c') as [Hp Hc]. split; [|exact Hc].
      intros p. destruct (Hp p) as [Heq|(Hgone & n & node & Hn & Hrest)];
        [by left|right].
      split; [done|]. exists n, node. split; [by apply list_elem_of_further|done]. }
    unfold OS.path_isdir, OS.getmtime, OS.remove.
    destruct (d !! OS.path_join folder a) as [node|] eqn:Hlook;
      [|simpl; split; [by left|lia]].
    destruct (OS.is_dir node) eqn:Hdir; [apply IH'|].
    destruct (OS.mtime node <? cutoff) eqn:Hold; [|apply IH'].
    apply Z.ltb_lt in Hold.
    destruct (OS.denied node) eqn:Hden; [simpl; split; [by left|lia]|].
    destruct (IH (delete (OS.path_join folder a) d) (c + 1)) as [Hp Hc].
    split.
    + intros p. destruct (decide (p = OS.path_join folder a)) as [->|Hne].
      * right. split.
        -- destruct (Hp (OS.path_join folder a)) as [Heq|[Hgone _]]; [|done].
           by rewrite Heq, lookup_delete_eq.
        -- exists a, node. split; [apply list_elem_of_here|done].
      * destruct (Hp p) as [Heq|(Hgone & n & node' & Hn & Hpath & Hwas & Hrest)].
        -- left. by rewrite Heq, lookup_delete_ne.
        -- right. split; [done|]. exists n, node'.
           split; [by apply list_elem_of_further|]. split; [done|].
           rewrite lookup_delete_ne in Hwas by done. done.
    + rewrite map_size_delete_Some in Hc by done.
      pose proof (map_size_ne_0_lookup_2 d (OS.path_join folder a)
                    (ltac:(by eexists))) as Hsize.
      lia.
Qed.

Lemma listdir_nonempty (folder : string) (d : gmap string OS.node)
    (names : list string) (n : string) :
  OS.listdir folder d = Ok names -> n ∈ names -> n <> "".
Proof.
  unfold OS.listdir. destruct (d !! folder) as [nd|]; [|done].
  destruct (negb (OS.is_dir nd)); [done|]. destruct (OS.denied nd); [done|].
  intros [= <-] ([p x] & _ & Hf)%list_elem_of_omap. simpl in Hf.
  unfold OS.child_name in Hf.
  destruct (OS.strip_prefix _ _) as [m|]; [|done].
  destruct (negb (String.eqb m "") && negb (has_char "/" m)) eqn:Hc; [|done].
  injection Hf as <-. apply andb_true_iff in Hc as [Hc _].
  apply negb_true_iff in Hc. by apply String.eqb_neq.
Qed.

(** X17. [cleanup_old_files] only ever deletes, and only stale files
    directly inside its folder: after any call, whether the sweep went
    through or an error ended it, a path holds what it held before, or
    it is [<folder>/<name>] for a name of the folder's listing (not
    empty, without slash), held an ordinary file last modified more than
    3600 seconds ago and is now absent.  No file is created or changed,
    no directory removed, the clock is not touched, and the number
    returned is the number of files that disappeared from the disk. *)
Theorem cleanup_only_removes_stale_files (self : AudioProcessor.t) (w : world) :
  let folder := AudioProcessor.upload_folder self in
  let out := AudioProcessor.cleanup_old_files self w in
  clock out.2 = clock w /\ uuid_count out.2 = uuid_count w /\
  (forall p,
     disk out.2 !! p = disk w !! p \/
     disk out.2 !! p = None /\
     exists names n node,
       OS.listdir folder (disk w) = Ok names /\ n ∈ names /\
       n <> "" /\ has_char "/" n = false /\
       p = OS.dir_prefix folder +:+ n /\
       disk w !! p = Some node /\ OS.is_dir node = false /\
       OS.mtime node < clock w - 3600 /\ OS.denied node = false) /\
  out.1 = Z.of_nat (size (disk w)) - Z.of_nat (size (disk out.2)).
Proof.
  cbv zeta. unfold AudioProcessor.cleanup_old_files.
  destruct (negb (OS.path_exists _ _));
    [simpl; repeat split; [by left|lia]|].
  destruct (OS.listdir _ _) as [names|exc] eqn:Hlist;
    [|simpl; repeat split; [by left|lia]].
  destruct (sweep_only_deletes (AudioProcessor.upload_folder self)
              (clock w - AudioProcessor.CLEANUP_THRESHOLD_SECONDS) names
              (disk w) 0) as [Hp Hc].
  destruct (listdir_entries _ _ _ Hlist) as [_ Hnames].
  assert (forall p n node,
            n ∈ names ->
            p = OS.path_join (AudioProcessor.upload_folder self) n ->
            disk w !! p = Some node /\ OS.is_dir node = false /\
            OS.mtime node <
              clock w - AudioProcessor.CLEANUP_THRESHOLD_SECONDS /\
            OS.denied node = false ->
            exists names' n' node',
              Ok names = Ok names' /\ n' ∈ names' /\
              n' <> "" /\ has_char "/" n' = false /\
              p = OS.dir_prefix (AudioProcessor.upload_folder self) +:+ n' /\
              disk w !! p = Some node' /\ OS.is_dir node' = false /\
              OS.mtime node' < clock w - 3600 /\ OS.denied node' = false)
    as Hinside.
  { intros p n node Hn -> Hnode. exists names, n, node.
    destruct (Hnames n Hn) as [Hslash _].
    split; [done|]. split; [done|].
    split; [by apply (listdir_nonempty _ _ _ _ Hlist)|]. split; [done|].
    split; [by apply path_join_child|exact Hnode]. }
  destruct (AudioProcessor.sweep _ _ _ _ _) as [[[e|] c'] d']; simpl in *.
  all: split; [done|]; split; [done|]; split; [|lia].
  all: intros p; destruct (Hp p) as [Heq|(Hgone & n & node & Hn & Hpath & Hrest)];
    [by left|right; split; [done|]; by apply (Hinside p n node)].
Qed.

Lemma sweep_shrinks (folder : string) (cutoff : Z) (names : list string)
    (d : gmap string OS.node) (c : Z) (p : string) :
  (AudioProcessor.sweep folder cutoff names d c).2 !! p = d !! p \/
  (AudioProcessor.sweep folder cutoff names d c).2 !! p = None.
Proof.
  destruct (sweep_only_deletes folder cutoff names d c) as [Hp _].
  destruct (Hp p) as [Heq|[Hgone _]]; [by left|by right].
Qed.

(** A sweep that went through left no stale file among the names it
    was given. *)
Lemma sweep_complete (folder : string) (cutoff : Z) (names : list string) :
  forall (d d' : gmap string OS.node) (c c' : Z),
    AudioProcessor.sweep folder cutoff names d c = (None, c', d') ->
    forall n, n ∈ names -> expired folder cutoff d' n = false.
Proof.
  induction names as [|a rest IH]; intros d d' c c' Heq n Hn;
    [by apply elem_of_nil in Hn|].
  simpl in Heq. unfold OS.path_isdir, OS.getmtime, OS.remove in Heq.
  destruct (d !! OS.path_join folder a) as [node|] eqn:Hlook;
    [|discriminate].
  assert (forall d1 c1,
            AudioProcessor.sweep folder cutoff rest d1 c1 = (None, c', d') ->
            (d1 !! OS.path_join folder a = None \/
             d1 !! OS.path_join folder a = Some node /\
             negb (OS.is_dir node) && (OS.mtime node <? cutoff) = false) ->
            expired folder cutoff d' n = false) as Hstep.
  { intros d1 c1 Hrest Hhead.
    apply elem_of_cons in Hn as [->|Hn]; [|by apply (IH d1 d' c1 c')].
    unfold expired.
    pose proof (sweep_shrinks folder cutoff rest d1 c1 (OS.path_join folder a))
      as Hsh.
    rewrite Hrest in Hsh. simpl in Hsh.
    destruct Hsh as [-> | ->]; [|done].
    by destruct Hhead as [-> | [-> ?]]. }
  destruct (OS.is_dir node) eqn:Hdir.
  { apply (Hstep d c Heq). right. split; [done|]. by rewrite ?Hdir. }
  destruct (OS.mtime node <? cutoff) eqn:Hold.
  - destruct (OS.denied node); [discriminate|].
    apply (Hstep _ _ Heq). left. apply lookup_delete_eq.
  - apply (Hstep d c Heq). right. split; [done|]. by rewrite ?Hdir, ?Hold.
Qed.

Lemma sweep_nothing_stale (folder : string) (cutoff : Z) (names : list string)
    (d : gmap string OS.node) (c : Z) :
  (forall n, n ∈ names ->
             is_Some (d !! OS.path_join folder n) /\
             expired folder cutoff d n = false) ->
  AudioProcessor.sweep folder cutoff names d c = (None, c, d).
Proof.
  induction names as [|a rest IH]; intros Hall; [done|].
  destruct (Hall a (list_elem_of_here _ _)) as [Hsome Hfresh].
  rewrite (sweep_skip folder cutoff a rest d c Hsome Hfresh).
  apply IH. intros n Hn. apply Hall. by apply list_elem_of_further.
Qed.

(** On a disk that only lost entries the listing only lost names. *)
Lemma listdir_shrinks (folder : string) (d d' : gmap string OS.node)
    (names names' : list string) :
  (forall p, d' !! p = d !! p \/ d' !! p = None) ->
  OS.listdir folder d = Ok names -> OS.listdir folder d' = Ok names' ->
  forall n, n ∈ names' -> n ∈ names.
Proof.
  intros Hsub Hlist Hlist' n. unfold OS.listdir in Hlist, Hlist'.
  destruct (d !! folder) as [nd|]; [|discriminate].
  destruct (negb (OS.is_dir nd)); [discriminate|].
  destruct (OS.denied nd); [discriminate|].
  destruct (d' !! folder) as [nd'|]; [|discriminate].
  destruct (negb (OS.is_dir nd')); [discriminate|].
  destruct (OS.denied nd'); [discriminate|].
  injection Hlist as <-. injection Hlist' as <-.
  rewrite !list_elem_of_omap. intros ([p' node'] & Hin & Hchild).
  exists (p', node'). split; [|done].
  apply elem_of_map_to_list. apply elem_of_map_to_list in Hin.
  destruct (Hsub p') as [Heq|Heq]; congruence.
Qed.

(** X18. A sweep that printed no error has finished the job: no file of
    the folder older than the threshold is left in its listing, and
    calling [cleanup_old_files] again at once returns 0 and changes
    nothing. *)
Theorem cleanup_old_files_idempotent (self : AudioProcessor.t) (w : world) :
  console (AudioProcessor.cleanup_old_files self w).2 = console w ->
  (forall names n,
     OS.listdir (AudioProcessor.upload_folder self)
       (disk (AudioProcessor.cleanup_old_files self w).2) = Ok names ->
     n ∈ names ->
     expired (AudioProcessor.upload_folder self) (clock w - 3600)
       (disk (AudioProcessor.cleanup_old_files self w).2) n = false) /\
  AudioProcessor.cleanup_old_files self
    (AudioProcessor.cleanup_old_files self w).2
  = (0, (AudioProcessor.cleanup_old_files self w).2).
Proof.
  intros Hquiet.
  assert (forall names n,
            OS.listdir (AudioProcessor.upload_folder self)
              (disk (AudioProcessor.cleanup_old_files self w).2) = Ok names ->
            n ∈ names ->
            expired (AudioProcessor.upload_folder self) (clock w - 3600)
              (disk (AudioProcessor.cleanup_old_files self w).2) n = false)
    as Hdone.
  { revert Hquiet. unfold AudioProcessor.cleanup_old_files.
    destruct (negb (OS.path_exists _ _)) eqn:Hex.
    - simpl. intros _ names n Hlist.
      apply listdir_exists in Hlist. by rewrite Hlist in Hex.
    - destruct (OS.listdir _ (disk w)) as [names0|exc] eqn:Hlist0;
        [|simpl; by intros ?%snoc_neq].
      pose proof (sweep_shrinks (AudioProcessor.upload_folder self)
                    (clock w - AudioProcessor.CLEANUP_THRESHOLD_SECONDS)
                    names0 (disk w) 0) as Hsh.
      destruct (AudioProcessor.sweep _ _ _ _ _) as [[[e|] c'] d'] eqn:Hsweep;
        simpl in *; [by intros ?%snoc_neq|].
      intros _ names n Hlist Hn.
      apply (sweep_complete _ _ _ _ _ _ _ Hsweep).
      by apply (listdir_shrinks _ _ _ _ _ Hsh Hlist0 Hlist). }
  split; [exact Hdone|].
  assert (clock (AudioProcessor.cleanup_old_files self w).2 = clock w) as Hclock.
  { unfold AudioProcessor.cleanup_old_files.
    destruct (negb _); [done|]. destruct (OS.listdir _ (disk w)); [|done].
    by destruct (AudioProcessor.sweep _ _ _ _ _) as [[[e|] c'] d']. }
  assert (OS.path_exists (AudioProcessor.upload_folder self)
            (disk (AudioProcessor.cleanup_old_files self w).2) = true ->
          exists names,
            OS.listdir (AudioProcessor.upload_folder self)
              (disk (AudioProcessor.cleanup_old_files self w).2) = Ok names)
    as Hlistable.
  { revert Hquiet. unfold AudioProcessor.cleanup_old_files.
    destruct (negb (OS.path_exists _ _)) eqn:Hex.
    - simpl. intros _ Hthere. by rewrite Hthere in Hex.
    - destruct (OS.listdir _ (disk w)) as [names0|exc] eqn:Hlist0;
        [|simpl; by intros ?%snoc_neq].
      pose proof (sweep_shrinks (AudioProcessor.upload_folder self)
                    (clock w - AudioProcessor.CLEANUP_THRESHOLD_SECONDS)
                    names0 (disk w) 0 (AudioProcessor.upload_folder self))
        as Hsh.
      destruct (AudioProcessor.sweep _ _ _ _ _) as [[[e|] c'] d'];
        simpl in *; [by intros ?%snoc_neq|].
      intros _. unfold OS.path_exists, OS.listdir in *.
      destruct Hsh as [-> | ->]; [|discriminate].
      intros _. destruct (disk w !! _) as [nd|]; [|discriminate].
      destruct (negb (OS.is_dir nd)); [discriminate|].
      destruct (OS.denied nd); [discriminate|]. by eexists. }
  revert Hdone Hclock Hlistable.
  generalize (AudioProcessor.cleanup_old_files self w).2.
  intros w' Hdone Hclock Hlistable.
  unfold AudioProcessor.cleanup_old_files.
  destruct (negb (OS.path_exists _ _)) eqn:Hex; [done|].
  apply negb_false_iff in Hex. destruct (Hlistable Hex) as [names Hlist].
  rewrite Hlist.
  rewrite sweep_nothing_stale; [by destruct w'|].
  intros n Hn. split; [by apply (listdir_entries _ _ _ Hlist)|].
  rewrite Hclock. by apply (Hdone names).
Qed.

Lemma cleanup_old_files_idempotent_witness :
  AudioProcessor.cleanup_old_files (AudioProcessor.Build "/tmp/out")
    Fixtures.two_files_cleanup.2
  = (0, Fixtures.two_files_cleanup.2).
Proof.
  apply (cleanup_old_files_idempotent (AudioProcessor.Build "/tmp/out")
           Fixtures.two_files_world).
  vm_compute. reflexivity.
Defined.

(** ** /convert and /export on top of audio_processor.py *)

Lemma allowed_is_supported (s : string) :
  str_in s App.ALLOWED_EXTENSIONS = true ->
  str_in s AudioProcessor.supported_formats = true.
Proof.
  rewrite !str_in_elem_of.
  unfold App.ALLOWED_EXTENSIONS, AudioProcessor.supported_formats. intros Hin.
  repeat (apply elem_of_cons in Hin as [->|Hin];
          [repeat first [apply list_elem_of_here|apply list_elem_of_further]|]).
  by apply elem_of_nil in Hin.
Qed.

Lemma convert_format_succeeds `{Externals} (self : AudioProcessor.t)
    (input_path fmt : string) (w : world) (audio : AudioSegment) :
  let output_path :=
    OS.path_join (AudioProcessor.upload_folder self)
      (uuid4_hex (uuid_count w) +:+ "_" +:+ "converted" +:+ "." +:+ fmt) in
  str_in (lower fmt) AudioProcessor.supported_formats = true ->
  from_file input_path = Ok audio ->
  (forall params, export_error audio output_path params = None) ->
  AudioProcessor.convert_format self input_path fmt w
  = (Ok output_path, write_file output_path (uuid4 w).2).
Proof.
  intros output_path Hsup Hfile Hexport. unfold_op.
  rewrite Hsup, Hfile. cbn [negb]. cbv beta iota zeta.
  fold output_path. by rewrite Hexport.
Qed.

(** X19. [/convert] with an [AudioProcessor] of audio_processor.py behind
    it: a request within the size limit that passes the checks, whose
    upload the system lets be written, pydub decodes and whose export
    does not fail, is answered 200 with the attachment [converted.<fmt>]
    ([<fmt>] in lower case) read from
    [<output folder>/<id>_converted.<fmt>]; the handler saved the upload
    under [uploads/], called [convert_format] once, and both files are
    handed to the function registered with [call_on_close].  The format
    check of the processor cannot fail here: the route only lets through
    formats it supports. *)
Theorem convert_end_to_end `{Externals} (self : AudioProcessor.t)
    (req : App.request) (w : world) (file : App.upload) (fmt : string)
    (audio : AudioSegment) :
  let input_path :=
    OS.path_join App.UPLOAD_FOLDER
      (secure_filename
         (uuid4_hex (uuid_count w) +:+ "_input_" +:+ App.filename file)) in
  let output_path :=
    OS.path_join (AudioProcessor.upload_folder self)
      (uuid4_hex (S (uuid_count w)) +:+ "_" +:+ "converted" +:+ "." +:+
       lower fmt) in
  App.content_length req <= App.MAX_FILE_SIZE ->
  App.files_get "file" (App.files req) = Some file ->
  App.filename file <> "" ->
  App.form_get "target_format" (App.form req) = Some fmt -> fmt <> "" ->
  App.allowed_file (App.filename file) = true ->
  str_in (lower fmt) App.ALLOWED_EXTENSIONS = true ->
  writable (disk w) input_path ->
  from_file input_path = Ok audio ->
  (forall params, export_error audio output_path params = None) ->
  App.convert_audio (AudioProcessor.as_processor self) req w
  = (App.Response 200
       (App.Attachment output_path ("converted." +:+ lower fmt))
       [Some input_path; Some output_path],
     write_file output_path (uuid4 (write_file input_path (uuid4 w).2)).2,
     [App.Saved input_path;
      App.Invoked App.OpConvert [PStr input_path; PStr (lower fmt)]
        (App.Returned (PStr output_path))]).
Proof.
  intros input_path output_path Hsize Hfile Hname Hfmt Hfmt' Hok Hsup
    Hwritable Haudio Hexport.
  unfold App.convert_audio. rewrite (parse_ok req Hsize).
  rewrite Hfile, (nonempty_eqb _ Hname), Hfmt. unfold App.missing.
  rewrite (nonempty_eqb _ Hfmt').
  change (default "" (Some fmt)) with fmt. rewrite Hok, Hsup.
  cbv beta iota zeta delta [negb uuid4 App.save]. cbn [disk].
  fold input_path. unfold writable in Hwritable. rewrite Hwritable.
  cbn [call_convert_format AudioProcessor.as_processor].
  rewrite (convert_format_succeeds self input_path (lower fmt) _ audio);
    [|rewrite lower_idem; by apply allowed_is_supported|exact Haudio
     |exact Hexport].
  unfold App.send_file.
  match goal with
  | |- context [OS.read_error ?fp (disk (write_file ?fp ?w1))] =>
      rewrite (read_after_write fp (clock w1) (disk w1)
               : OS.read_error fp (disk (write_file fp w1)) = _)
  end.
  reflexivity.
Qed.

Lemma convert_end_to_end_witness :
  Scenarios.convert_mp3
  = (App.Response 200
       (App.Attachment "/tmp/out/id1_converted.mp3" "converted.mp3")
       [Some "uploads/id0_input_test.wav"; Some "/tmp/out/id1_converted.mp3"],
     write_file "/tmp/out/id1_converted.mp3"
       (@uuid4 Fixtures.ideal
          (write_file "uploads/id0_input_test.wav"
             (@uuid4 Fixtures.ideal Fixtures.world0).2)).2,
     [App.Saved "uploads/id0_input_test.wav";
      App.Invoked App.OpConvert
        [PStr "uploads/id0_input_test.wav"; PStr "mp3"]
        (App.Returned (PStr "/tmp/out/id1_converted.mp3"))]).
Proof.
  assert (Fixtures.small_body <= App.MAX_FILE_SIZE) as Hsize
    by (vm_compute; discriminate).
  apply (@convert_end_to_end Fixtures.ideal (AudioProcessor.Build "/tmp/out")
           (Fixtures.convert_request "test.wav" "MP3") Fixtures.world0
           (App.Upload "test.wav") "MP3" 5000
           Hsize eq_refl ltac:(discriminate) eq_refl ltac:(discriminate)
           eq_refl eq_refl eq_refl eq_refl (fun _ => eq_refl)).
Defined.

(** X20. [/export] with an [AudioProcessor] of audio_processor.py behind
    it never answers 200.  The route calls
    [export_with_settings(input_path, output_format, bitrate, sample_rate)]
    while the method takes [(input_path, target_format, settings)]:
    every call that is made raises [TypeError], no file is exported, and
    the answer is 500 with the message of the [TypeError]. *)
Theorem export_call_never_fits `{Externals} (self : AudioProcessor.t)
    (req : App.request) (w : world) :
  let out := App.export_audio (AudioProcessor.as_processor self) req w in
  App.status out.1.1 <> 200 /\
  forall o args r,
    App.Invoked o args r ∈ out.2 ->
    length args = 4%nat /\
    r = App.Raised (AudioProcessor.arity_error "export_with_settings" "4" 4) /\
    out.1.1
    = App.error_response 500
        ("AudioProcessor.export_with_settings() takes 4 positional " +:+
         "arguments but 5 were given").
Proof.
  cbv zeta. unfold App.export_audio.
  destruct (App.parse_error req);
    [split; [discriminate|by intros o args r ?%elem_of_nil]|].
  destruct (App.files_get _ _) as [file|];
    [|split; [discriminate|by intros o args r ?%elem_of_nil]].
  destruct (_ || _); [split; [discriminate|by intros o args r ?%elem_of_nil]|].
  destruct (negb (App.allowed_file _));
    [split; [discriminate|by intros o args r ?%elem_of_nil]|].
  cbv beta iota zeta delta [uuid4 App.save]. cbn [disk].
  destruct (OS.write_error _ _) as [e|]; cbv beta iota zeta.
  { unfold App.export_failed, App.error_response. cbn [fst snd App.status].
    split; [destruct (App.any_keyword _ _); discriminate|].
    intros o args r Hin. no_call Hin. }
  destruct (int_of_str _) as [rate|].
  - cbn [call_export_with_settings AudioProcessor.as_processor length].
    unfold AudioProcessor.raise, App.export_failed. cbv beta iota zeta.
    match goal with
    | |- context [App.any_keyword ?k ?m] =>
        change (App.any_keyword k m) with false
    end.
    cbv beta iota. cbn [fst snd].
    split; [discriminate|]. intros o args r Hin.
    apply elem_of_app in Hin as [Hin|Hin]; [|no_call Hin].
    apply elem_of_cons in Hin as [Hin|Hin]; [discriminate|].
    apply list_elem_of_singleton in Hin. injection Hin as -> -> ->.
    by repeat split.
  - unfold App.export_failed.
    match goal with
    | |- context [App.any_keyword ?k ?m] => change (App.any_keyword k m) with true
    end.
    cbv beta iota. cbn [fst snd].
    split; [discriminate|]. intros o args r Hin. no_call Hin.
Qed.

(** ** POST /metadata: the disk is handed back as it was *)

(** X21. [/metadata] leaves the disk as it found it: whatever the
    request and whatever the processor answers, every path other than
    the one the upload was saved under holds what it held before, and
    clock and console are untouched.  (The saved path itself is gone:
    see [metadata_temp_file_removed].) *)
Theorem get_metadata_restores_disk `{Externals} (processor : Processor)
    (req : App.request) (w : world) :
  let out := App.get_metadata processor req w in
  clock out.1.2 = clock w /\ console out.1.2 = console w /\
  forall p, (forall q, App.Saved q ∈ out.2 -> q <> p) ->
            disk out.1.2 !! p = disk w !! p.
Proof.
  cbv zeta. unfold App.get_metadata.
  destruct (App.parse_error req); [done|].
  destruct (App.files_get _ _) as [file|]; [|done].
  destruct (negb (App.allowed_file _)); [done|].
  cbv beta iota zeta delta [uuid4 App.save]. cbn [disk].
  set (fp := OS.path_join App.UPLOAD_FOLDER
               (secure_filename
                  (uuid4_hex (uuid_count w) +:+ "_" +:+ App.filename file))).
  rewrite (nonempty_eqb fp) by apply path_join_uploads_nonempty.
  destruct (OS.write_error fp (disk w)) as [e|] eqn:Hw.
  - destruct (remove_after_refused_write fp (disk w) e Hw
                (path_join_uploads_nonempty _)) as [e' He'].
    cbn [disk]. by rewrite He'.
  - destruct (call_get_audio_info processor _ _) as [md|exc];
      cbv beta iota zeta;
      match goal with
      | |- context [OS.remove fp (disk (write_file fp ?w1))] =>
          rewrite (remove_after_write fp (clock w1) (disk w1)
                   : OS.remove fp (disk (write_file fp w1)) = _)
      end;
      cbn [fst snd]; (split; [done|]); (split; [done|]); intros p Hp;
      cbn [disk with_disk]; (rewrite lookup_delete_ne; [done|]);
      apply Hp; apply list_elem_of_here.
Qed.
